(** * Salted graph versioning: [get_salted_version] and [SaltedTask.salt_target]

    A shallow embedding of [salted_demo.py].  The two functions of the module
    that carry the versioning scheme are embedded together with the library
    routines they call: [hashlib.sha256], [luigi.task.flatten], [sorted],
    [repr] and the part of [str.format] that file patterns use.

    Text is a Rocq [string]: the list of the code points of the Python
    [str], each below 256.  A [str] with a character beyond Latin-1 has no
    counterpart here.  [str.encode] gives the UTF-8 bytes, one for a
    character below 128 and two for the others. *)

From Stdlib Require Import ZArith Ascii String DecimalString DecimalZ.
From stdpp Require Import base option list strings gmap sorting.

Local Open Scope Z_scope.
Set Warnings "-register-all".

(** ** SHA-256 (FIPS 180-4), as [hashlib.sha256] computes it *)

Module SHA256.

(** A word is a [Z] kept in [0, 2^32) by reducing after each operation
    that can overflow. *)
Definition wrap (x : Z) : Z := x mod 2 ^ 32.
Definition add (x y : Z) : Z := wrap (x + y).
Definition rotr (n x : Z) : Z :=
  Z.lor (Z.shiftr x n) (wrap (Z.shiftl x (32 - n))).
Definition shr (n x : Z) : Z := Z.shiftr x n.
Definition lnot (x : Z) : Z := Z.lxor x 0xffffffff.

Definition Ch (x y z : Z) : Z := Z.lxor (Z.land x y) (Z.land (lnot x) z).
Definition Maj (x y z : Z) : Z :=
  Z.lxor (Z.lxor (Z.land x y) (Z.land x z)) (Z.land y z).
Definition Sigma0 (x : Z) : Z :=
  Z.lxor (Z.lxor (rotr 2 x) (rotr 13 x)) (rotr 22 x).
Definition Sigma1 (x : Z) : Z :=
  Z.lxor (Z.lxor (rotr 6 x) (rotr 11 x)) (rotr 25 x).
Definition sigma0 (x : Z) : Z :=
  Z.lxor (Z.lxor (rotr 7 x) (rotr 18 x)) (shr 3 x).
Definition sigma1 (x : Z) : Z :=
  Z.lxor (Z.lxor (rotr 17 x) (rotr 19 x)) (shr 10 x).

(** The round constants are the first 32 bits of the fractional parts of
    the cube roots of the first 64 primes; the initial hash value is made
    of the first 32 bits of the fractional parts of the square roots of the
    first 8. *)
Definition primes : list Z :=
  [2; 3; 5; 7; 11; 13; 17; 19; 23; 29; 31; 37; 41; 43; 47; 53; 59; 61; 67;
   71; 73; 79; 83; 89; 97; 101; 103; 107; 109; 113; 127; 131; 137; 139; 149;
   151; 157; 163; 167; 173; 179; 181; 191; 193; 197; 199; 211; 223; 227;
   229; 233; 239; 241; 251; 257; 263; 269; 271; 277; 281; 283; 293; 307;
   311].

(** The integer cube root, found bit by bit from bit [bits - 1] down. *)
Fixpoint cube_root_from (bits : nat) (n x : Z) : Z :=
  match bits with
  | O => x
  | S bits' =>
      let y := x + 2 ^ Z.of_nat bits' in
      cube_root_from bits' n (if decide (y * y * y ≤ n) then y else x)
  end.

Definition fraction_of_cube_root (p : Z) : Z :=
  wrap (cube_root_from 36 (p * 2 ^ 96) 0).
Definition fraction_of_square_root (p : Z) : Z :=
  wrap (Z.sqrt (p * 2 ^ 64)).

Definition K : list Z := Eval vm_compute in fraction_of_cube_root <$> primes.

(** The eight working variables, and the hash value between blocks. *)
Record state : Type := State
  { ha : Z; hb : Z; hc : Z; hd : Z; he : Z; hf : Z; hg : Z; hh : Z }.

Definition H0 : state :=
  Eval vm_compute in
    match fraction_of_square_root <$> take 8 primes with
    | [a; b; c; d; e; f; g; h] => State a b c d e f g h
    | _ => State 0 0 0 0 0 0 0 0
    end.

(** Padding: a 1 bit, zero bits up to 56 mod 64 bytes, then the message
    length in bits as a 64-bit big-endian integer. *)
Definition be_bytes (n : nat) (x : Z) : list Z :=
  (λ i : nat, Z.shiftr x (8 * Z.of_nat (n - 1 - i)) mod 256) <$> seq 0 n.

Definition pad (msg : list Z) : list Z :=
  let len := Z.of_nat (length msg) in
  msg ++ [0x80] ++ replicate (Z.to_nat ((55 - len) mod 64)) 0
      ++ be_bytes 8 ((8 * len) mod 2 ^ 64).

Fixpoint be_words (bs : list Z) : list Z :=
  match bs with
  | b0 :: b1 :: b2 :: b3 :: bs' =>
      (Z.shiftl b0 24 + Z.shiftl b1 16 + Z.shiftl b2 8 + b3) :: be_words bs'
  | _ => []
  end.

(** The message schedule, newest word first: [schedule n ws] extends the
    reversed list [ws] of the words so far by [n] further words. *)
Fixpoint schedule (n : nat) (ws : list Z) : list Z :=
  match n with
  | O => ws
  | S n' =>
      let w := add (add (sigma1 (nth 1 ws 0)) (nth 6 ws 0))
                   (add (sigma0 (nth 14 ws 0)) (nth 15 ws 0)) in
      schedule n' (w :: ws)
  end.

Definition round (s : state) (kw : Z * Z) : state :=
  let '(k, w) := kw in
  let t1 := add (add (add (add (hh s) (Sigma1 (he s)))
                          (Ch (he s) (hf s) (hg s))) k) w in
  let t2 := add (Sigma0 (ha s)) (Maj (ha s) (hb s) (hc s)) in
  State (add t1 t2) (ha s) (hb s) (hc s) (add (hd s) t1) (he s) (hf s) (hg s).

Definition compress (h : state) (block : list Z) : state :=
  let ws := rev (schedule 48 (rev (be_words block))) in
  let s := fold_left round (zip K ws) h in
  State (add (ha h) (ha s)) (add (hb h) (hb s)) (add (hc h) (hc s))
        (add (hd h) (hd s)) (add (he h) (he s)) (add (hf h) (hf s))
        (add (hg h) (hg s)) (add (hh h) (hh s)).

Fixpoint blocks (n : nat) (h : state) (bs : list Z) : state :=
  match n with
  | O => h
  | S n' => blocks n' (compress h (take 64 bs)) (drop 64 bs)
  end.

Definition sha256 (msg : list Z) : state :=
  let p := pad msg in blocks (length p / 64) H0 p.

(** [hexdigest]: eight lowercase hexadecimal digits per word, the most
    significant first. *)
Definition hexchar (n : Z) : ascii :=
  match n with
  | 0 => "0" | 1 => "1" | 2 => "2" | 3 => "3" | 4 => "4" | 5 => "5"
  | 6 => "6" | 7 => "7" | 8 => "8" | 9 => "9" | 10 => "a" | 11 => "b"
  | 12 => "c" | 13 => "d" | 14 => "e" | _ => "f"
  end%char.

Definition nibble (w : Z) (i : Z) : ascii :=
  hexchar (Z.land (Z.shiftr w (4 * i)) 15).

Definition hexword (w : Z) (rest : string) : string :=
  String (nibble w 7) (String (nibble w 6) (String (nibble w 5)
 (String (nibble w 4) (String (nibble w 3) (String (nibble w 2)
 (String (nibble w 1) (String (nibble w 0) rest))))))).

Definition hexdigest (s : state) : string :=
  hexword (ha s) (hexword (hb s) (hexword (hc s) (hexword (hd s)
 (hexword (he s) (hexword (hf s) (hexword (hg s) (hexword (hh s) ""))))))).

End SHA256.

(** The UTF-8 bytes of one character below 256. *)
Definition encode_char (c : ascii) : list Z :=
  let n := Z.of_N (N_of_ascii c) in
  if decide (n < 128) then [n] else [192 + n / 64; 128 + n mod 64].

(** [msg.encode()] *)
Definition encode (msg : string) : list Z :=
  list_ascii_of_string msg ≫= encode_char.

(** [sha256(msg.encode()).hexdigest()] *)
Definition sha256_hex (msg : string) : string :=
  SHA256.hexdigest (SHA256.sha256 (encode msg)).


(** ** Python values and their renderings *)

(** The values a luigi parameter can hold, as far as this development
    renders them.  [PyObject r s] is a value of any other type (a float, a
    date interval, an instance of a user class), given by the two texts
    that [repr] and [str] return for it. *)
Inductive pyvalue : Type :=
  | PyNone
  | PyBool (b : bool)
  | PyInt (n : Z)
  | PyStr (s : string)
  | PyDate (year month day : Z)
  | PyObject (repr_text str_text : string).

Definition decimal (n : Z) : string := NilEmpty.string_of_int (Z.to_int n).

(** [%0<width>d] for a non-negative number. *)
Definition zero_padded (width : nat) (n : Z) : string :=
  let s := decimal n in
  string_of_list_ascii (replicate (width - String.length s) "0"%char) +:+ s.

Fixpoint contains (c : ascii) (s : string) : bool :=
  match s with
  | EmptyString => false
  | String c' s' => if decide (c = c') then true else contains c s'
  end.

Definition squote : ascii := "'"%char.
Definition dquote : ascii := "034"%char.
Definition backslash : ascii := "\"%char.

(** [repr] of a [str] picks double quotes when the text holds a single
    quote and no double quote, and single quotes otherwise. *)
Definition repr_quote (s : string) : ascii :=
  if contains squote s && negb (contains dquote s) then dquote else squote.

(** [str.isprintable] on one character below 256: the control characters
    (below 32 and from 127 to 159), the no-break space (160) and the soft
    hyphen (173) are not printable; the space counts as printable in
    [repr]. *)
Definition printable (n : Z) : bool :=
  bool_decide (32 ≤ n < 127 ∨ (160 < n ∧ n ≠ 173)).

(** One character of the [repr] of a [str]: the quote and the backslash
    get a backslash, tab, newline and carriage return their letter, every
    other character that is not printable its two hexadecimal digits, and
    a printable character is copied. *)
Definition repr_char (quote c : ascii) : string :=
  let n := Z.of_N (N_of_ascii c) in
  if decide (c = quote ∨ c = backslash) then String backslash (String c "")
  else if decide (n = 9) then "\t"
  else if decide (n = 10) then "\n"
  else if decide (n = 13) then "\r"
  else if printable n then String c ""
  else
    String backslash (String "x" (String (SHA256.hexchar (n / 16))
                                 (String (SHA256.hexchar (n mod 16)) ""))).

Fixpoint repr_body (quote : ascii) (s : string) : string :=
  match s with
  | EmptyString => String quote ""
  | String c s' => repr_char quote c +:+ repr_body quote s'
  end.

Definition repr_str (s : string) : string :=
  let quote := repr_quote s in String quote (repr_body quote s).

(** [repr(value)] *)
Definition py_repr (v : pyvalue) : string :=
  match v with
  | PyNone => "None"
  | PyBool true => "True"
  | PyBool false => "False"
  | PyInt n => decimal n
  | PyStr s => repr_str s
  | PyDate y m d =>
      "datetime.date(" +:+ decimal y +:+ ", " +:+ decimal m +:+ ", "
                       +:+ decimal d +:+ ")"
  | PyObject r _ => r
  end.

(** [str(value)], which is also [format(value, '')] *)
Definition py_str (v : pyvalue) : string :=
  match v with
  | PyNone => "None"
  | PyBool true => "True"
  | PyBool false => "False"
  | PyInt n => decimal n
  | PyStr s => s
  | PyDate y m d =>
      zero_padded 4 y +:+ "-" +:+ zero_padded 2 m +:+ "-" +:+ zero_padded 2 d
  | PyObject _ s => s
  end.

Fixpoint all_chars (P : ascii → bool) (s : string) : bool :=
  match s with
  | EmptyString => true
  | String c s' => P c && all_chars P s'
  end.

Definition is_digit (c : ascii) : bool :=
  let n := N_of_ascii c in (48 <=? n)%N && (n <=? 57)%N.
Definition is_ascii (c : ascii) : bool := (N_of_ascii c <? 128)%N.

(** The values of the types whose [repr] is embedded in full. *)
Definition builtin (v : pyvalue) : Prop :=
  match v with
  | PyObject _ _ => False
  | _ => True
  end.

(** Reading back the body of a [str] literal up to its closing quote: the
    inverse of [repr_body], by which [repr] is seen to tell texts apart. *)
Definition hexval (c : ascii) : Z :=
  match c with
  | "0" => 0 | "1" => 1 | "2" => 2 | "3" => 3 | "4" => 4 | "5" => 5
  | "6" => 6 | "7" => 7 | "8" => 8 | "9" => 9 | "a" => 10 | "b" => 11
  | "c" => 12 | "d" => 13 | "e" => 14 | _ => 15
  end%char.

Fixpoint unrepr_body (quote : ascii) (s : string) : option string :=
  match s with
  | EmptyString => None
  | String c rest =>
      if decide (c = quote) then Some ""
      else if decide (c = backslash) then
        match rest with
        | EmptyString => None
        | String e rest' =>
            if decide (e = "t"%char) then
              String "009"%char <$> unrepr_body quote rest'
            else if decide (e = "n"%char) then
              String "010"%char <$> unrepr_body quote rest'
            else if decide (e = "r"%char) then
              String "013"%char <$> unrepr_body quote rest'
            else if decide (e = "x"%char) then
              match rest' with
              | String h1 (String h2 rest'') =>
                  String (ascii_of_N (Z.to_N (16 * hexval h1 + hexval h2)))
                    <$> unrepr_body quote rest''
              | _ => None
              end
            else String e <$> unrepr_body quote rest'
        end
      else String c <$> unrepr_body quote rest
  end.

Definition is_decimal_char (c : ascii) : bool :=
  is_digit c || bool_decide (c = "-"%char).

(** [sep.join(items)] *)
Fixpoint join (sep : string) (items : list string) : string :=
  match items with
  | [] => ""
  | [x] => x
  | x :: rest => x +:+ sep +:+ join sep rest
  end.

(** [s[:n]]: a negative bound counts from the end of the text. *)
Definition slice_to (s : string) (n : Z) : string :=
  let len := Z.of_nat (String.length s) in
  let stop := if decide (n < 0) then Z.max 0 (len + n) else Z.min n len in
  String.substring 0 (Z.to_nat stop) s.

(** ** Outcomes of a call *)

Inductive exn : Type :=
  | RecursionError
  | KeyError (key : string)
  | AttributeError (name : string)
  | IndexError
  | ValueError.

(** A call returns a value or raises.  [Unmodelled] marks a use of
    [str.format] outside the part of its field syntax that is embedded
    below; no statement is made about such a call. *)
Inductive outcome (A : Type) : Type :=
  | Ok (a : A)
  | Raise (e : exn)
  | Unmodelled.
Arguments Ok {A} a.
Arguments Raise {A} e.
Arguments Unmodelled {A}.

Global Instance outcome_ret : MRet outcome := λ A a, Ok a.
Global Instance outcome_bind : MBind outcome := λ A B k m,
  match m with
  | Ok a => k a
  | Raise e => Raise e
  | Unmodelled => Unmodelled
  end.

(** A [for] loop that updates an accumulator and stops at the first
    exception. *)
Fixpoint for_each {A S} (body : S → A → outcome S) (acc : S) (l : list A)
  : outcome S :=
  match l with
  | [] => Ok acc
  | x :: l' => acc' ← body acc x; for_each body acc' l'
  end.

(** A list comprehension whose element expression can raise. *)
Fixpoint comprehension {A B} (f : A → outcome B) (l : list A)
  : outcome (list B) :=
  match l with
  | [] => Ok []
  | x :: l' => y ← f x; ys ← comprehension f l'; Ok (y :: ys)
  end.

(** ** The luigi task interface *)

(** A [luigi.Parameter] declared on a task class; only its [significant]
    flag matters here. *)
Record LuigiParameter : Type := { significant : bool }.

(** What [requires()] may return: nothing, one task, or lists and dicts of
    such, nested at will.  A dict is kept as its items in iteration order. *)
Inductive Struct (T : Type) : Type :=
  | SNone
  | STask (t : T)
  | SList (items : list (Struct T))
  | SDict (items : list (string * Struct T)).
Arguments SNone {T}.
Arguments STask {T} t.
Arguments SList {T} items.
Arguments SDict {T} items.

(** [luigi.task.flatten] *)
Fixpoint flatten {T} (struct : Struct T) : list T :=
  match struct with
  | SNone => []
  | STask t => [t]
  | SList items =>
      (fix go (l : list (Struct T)) : list T :=
         match l with
         | [] => []
         | result :: l' => flatten result ++ go l'
         end) items
  | SDict items =>
      (fix go (l : list (string * Struct T)) : list T :=
         match l with
         | [] => []
         | (_, result) :: l' => flatten result ++ go l'
         end) items
  end.

(** What the two functions ask of a task object.  [getsource] is the text
    that [inspect.getsource(task.__class__)] returns: a task of a class
    whose source cannot be retrieved, for which [inspect.getsource] raises
    [OSError] or [TypeError] and [get_salted_version] with it, is no
    instance of the interface.  [get_params] lists the parameters declared
    on the class and [param_kwargs] holds their values.  [hasattr] tells
    whether the object has an attribute of the given name, and [getattr]
    gives its value when that is one of the values embedded above, as the
    values of the parameters are; the methods and the other attributes
    that [luigi.Task] brings are there but have no value here.  Then come
    the three parameters that [SaltedTask] declares.  The constructor of a
    luigi task refuses to build a task without a value for each declared
    parameter, which [param_kwargs_bound] records. *)
Class Luigi (T : Type) : Type := {
  requires : T → Struct T;
  getsource : T → string;
  get_params : T → list (string * LuigiParameter);
  param_kwargs : T → gmap string pyvalue;
  getattr : T → string → option pyvalue;
  hasattr : T → string → bool;
  salt_workflow : T → bool;
  salt_parameters : T → bool;
  salt_length : T → Z;
  param_kwargs_bound :
    ∀ task name param,
      (name, param) ∈ get_params task → is_Some (param_kwargs task !! name)
}.

(** [sorted] on the [(name, parameter)] pairs: luigi lists every parameter
    name once, so the order of the names decides. *)
Definition name_le (x y : string * LuigiParameter) : Prop := String.le x.1 y.1.

Global Instance name_le_dec : RelDecision name_le.
Proof. intros x y. unfold name_le. apply _. Defined.

Definition sorted (l : list (string * LuigiParameter))
  : list (string * LuigiParameter) :=
  merge_sort name_le l.

(** [task.param_kwargs[param_name]] *)
Definition subscript (d : gmap string pyvalue) (key : string)
  : outcome pyvalue :=
  match d !! key with
  | Some v => Ok v
  | None => Raise (KeyError key)
  end.

Section get_salted_version.
Context {T : Type} `{Luigi T}.

(** Line 58: the element of the comprehension for one parameter. *)
Definition pair_of (task : T) : string * LuigiParameter → outcome string :=
  λ '(param_name, _),
    value ← subscript (param_kwargs task) param_name;
    Ok (param_name +:+ "=" +:+ py_repr value).

(** The comprehension of lines 58-60. *)
Definition param_pairs (task : T) : outcome (list string) :=
  comprehension
    (pair_of task)
    (filter (λ '(_, param), significant param = true)
            (sorted (get_params task))).

(** [limit] is the depth of recursion the interpreter still allows: a
    call at depth 0 raises [RecursionError]. *)
Fixpoint get_salted_version (limit : nat) (task : T) : outcome string :=
  match limit with
  | O => Raise RecursionError
  | S limit' =>
      msg ←
        for_each (λ msg req,
                    salted ← get_salted_version limit' req;
                    Ok (msg +:+ salted))
                 "" (flatten (requires task));
      pairs ← param_pairs task;
      let msg := msg +:+ join "," (getsource task :: pairs) in
      Ok (sha256_hex msg)
  end.
End get_salted_version.

(** ** File patterns: the embedded part of [str.format]

    [file_pattern.format(salt=..., self=self)] is embedded for literal
    text, the escapes [{{] and [}}], and replacement fields made of a name
    and attribute names joined by dots, such as [{salt}] and
    [{self.date_interval}].  Conversions ([!r]), format specifications
    ([:>8]), indexing ([[0]]), attributes of anything but the task,
    attributes of the task that have no embedded value, the task itself
    ([{self}], whose text luigi builds), field names with non-ASCII
    characters and positional indices of ten or more digits are
    [Unmodelled]. *)

Fixpoint split_on (sep : ascii) (s : string) : list string :=
  match s with
  | EmptyString => [""]
  | String c s' =>
      if decide (c = sep) then "" :: split_on sep s'
      else match split_on sep s' with
           | x :: xs => String c x :: xs
           | [] => [String c ""]
           end
  end.

(** The objects a replacement field can denote. *)
Inductive fobject (T : Type) : Type :=
  | FStr (s : string)
  | FTask (t : T)
  | FValue (v : pyvalue).
Arguments FStr {T} s.
Arguments FTask {T} t.
Arguments FValue {T} v.

Section salt_target.
Context {T : Type} `{Luigi T}.

(** The first name of a field is looked up among the positional and
    keyword arguments of the [format] call; there are no positional
    arguments, and the keywords are [salt] and [self]. *)
Definition get_value (salt : string) (self : T) (first : string)
  : outcome (fobject T) :=
  if negb (all_chars is_ascii first) then Unmodelled
  else if decide (first = "") then Raise IndexError
  else if all_chars is_digit first then
    if decide (String.length first ≤ 9)%nat then Raise IndexError
    else Unmodelled
  else if decide (first = "salt") then Ok (FStr salt)
  else if decide (first = "self") then Ok (FTask self)
  else Raise (KeyError first).

(** [getattr(obj, name)] for one attribute name of a field. *)
Definition get_attribute (obj : fobject T) (name : string)
  : outcome (fobject T) :=
  if decide (name = "") then Raise ValueError
  else match obj with
       | FTask t =>
           match getattr t name with
           | Some v => Ok (FValue v)
           | None =>
               if hasattr t name then Unmodelled
               else Raise (AttributeError name)
           end
       | _ => Unmodelled
       end.

(** [format(obj, '')] *)
Definition render (obj : fobject T) : outcome string :=
  match obj with
  | FStr s => Ok s
  | FTask _ => Unmodelled
  | FValue v => Ok (py_str v)
  end.

Definition format_field (salt : string) (self : T) (field_name : string)
  : outcome string :=
  match split_on "." field_name with
  | [] => Raise IndexError
  | first :: attributes =>
      obj ← get_value salt self first;
      obj ← for_each get_attribute obj attributes;
      render obj
  end.

(** The scan of the pattern, left to right.  [field] is [None] in literal
    text and [Some name] inside a replacement field whose characters so
    far are [name].  A field is resolved when its closing brace is read,
    before the rest of the pattern is looked at. *)
Fixpoint format_from (salt : string) (self : T) (field : option string)
    (pattern : string) : outcome string :=
  match pattern with
  | EmptyString =>
      match field with
      | None => Ok ""
      | Some _ => Raise ValueError
      end
  | String c rest =>
      match field with
      | None =>
          if decide (c = "{"%char) then
            match rest with
            | EmptyString => Raise ValueError
            | String c' rest' =>
                if decide (c' = "{"%char) then
                  tail ← format_from salt self None rest';
                  Ok (String "{" tail)
                else format_from salt self (Some "") rest
            end
          else if decide (c = "}"%char) then
            match rest with
            | EmptyString => Raise ValueError
            | String c' rest' =>
                if decide (c' = "}"%char) then
                  tail ← format_from salt self None rest';
                  Ok (String "}" tail)
                else Raise ValueError
            end
          else
            tail ← format_from salt self None rest;
            Ok (String c tail)
      | Some name =>
          if decide (c = "}"%char) then
            text ← format_field salt self name;
            tail ← format_from salt self None rest;
            Ok (text +:+ tail)
          else if decide (c = "{"%char) then Raise ValueError
          else if decide (c = "!"%char ∨ c = ":"%char ∨ c = "["%char)
            then Unmodelled
          else format_from salt self (Some (name +:+ String c "")) rest
      end
  end.

(** [file_pattern.format(salt=salt, self=self)] *)
Definition format (file_pattern salt : string) (self : T) : outcome string :=
  format_from salt self None file_pattern.

(** [SaltedTask.salt_target].  [limit] is the recursion depth left for
    the call of [get_salted_version]; [target_type] builds the target
    from the path and the keyword arguments handed through. *)
Definition salt_target {Target Kwargs : Type} (limit : nat) (self : T)
    (target_type : string → Kwargs → Target) (file_pattern : string)
    (kwargs : Kwargs) : outcome Target :=
  salted ← get_salted_version limit self;
  file_path ← format file_pattern (slice_to salted (salt_length self)) self;
  Ok (target_type file_path kwargs).
End salt_target.

(** ** The hashed message, named for the statements below *)

Section messages.
Context {T : Type} `{Luigi T}.

(** Lines 38-44: the digests of the requirements, in the order in which
    [flatten] lists them. *)
Definition lineage_message (limit : nat) (task : T) : outcome string :=
  for_each (λ msg req,
              salted ← get_salted_version limit req;
              Ok (msg +:+ salted))
           "" (flatten (requires task)).

(** Lines 47-62: the class source and the significant parameters. *)
Definition self_message (task : T) : outcome string :=
  pairs ← param_pairs task;
  Ok (join "," (getsource task :: pairs)).

(** The text handed to [sha256] by a call at depth [S limit]. *)
Definition hashed_message (limit : nat) (task : T) : outcome string :=
  lineage ← lineage_message limit task;
  self ← self_message task;
  Ok (lineage +:+ self).

(** The parameters that the comprehension of lines 58-60 ranges over. *)
Definition significant_sorted (task : T) : list (string * LuigiParameter) :=
  filter (λ '(_, param), significant param = true) (sorted (get_params task)).

(** The names of the significant parameters, in declaration order. *)
Definition significant_names (task : T) : list string :=
  (filter (λ '(_, param), significant param = true) (get_params task)).*1.

(** The requirements graph reachable from a task is finite and acyclic:
    every chain of requirements that starts at the task ends. *)
Inductive finite_acyclic : T → Prop :=
  | finite_acyclic_intro task :
      (∀ req, req ∈ flatten (requires task) → finite_acyclic req) →
      finite_acyclic task.

(** No chain of requirements that starts at the task counts more than
    [n] tasks, the task itself included. *)
Inductive chains_within : nat → T → Prop :=
  | chains_within_intro n task :
      (∀ req, req ∈ flatten (requires task) → chains_within n req) →
      chains_within (S n) task.

(** The tasks of the requirements graph below a task, the task included. *)
Inductive reachable : T → T → Prop :=
  | reachable_refl task : reachable task task
  | reachable_step task req t :
      req ∈ flatten (requires task) → reachable req t → reachable task t.
End messages.

(** ** The function with its calls of [inspect.getsource]

    [inspect.getsource] looks the class up in its source file.  The
    function is embedded a second time with the list of these calls, in
    the order in which they are made, next to the outcome: [Getsource t]
    is the call [inspect.getsource(t.__class__)] of line 52. *)

Inductive event (T : Type) : Type := Getsource (task : T).
Arguments Getsource {T} task.

Section calls.
Context {T : Type} `{Luigi T}.

(** The loop of lines 41-44 over a callee that reports its calls. *)
Fixpoint lineage_io (callee : T → list (event T) * outcome string)
    (msg : string) (reqs : list T) : list (event T) * outcome string :=
  match reqs with
  | [] => ([], Ok msg)
  | req :: reqs' =>
      let '(calls, salted) := callee req in
      match salted with
      | Ok salted =>
          let '(calls', result) := lineage_io callee (msg +:+ salted) reqs' in
          (calls ++ calls', result)
      | Raise e => (calls, Raise e)
      | Unmodelled => (calls, Unmodelled)
      end
  end.

(** [get_salted_version]: the calls made and the outcome.  The list of
    line 52 is built before the comprehension of lines 58-60 runs. *)
Fixpoint get_salted_version_io (limit : nat) (task : T)
  : list (event T) * outcome string :=
  match limit with
  | O => ([], Raise RecursionError)
  | S limit' =>
      let '(calls, lineage) :=
        lineage_io (get_salted_version_io limit') "" (flatten (requires task))
      in
      match lineage with
      | Ok msg =>
          let source := getsource task in
          (calls ++ [Getsource task],
           pairs ← param_pairs task;
           Ok (sha256_hex (msg +:+ join "," (source :: pairs))))
      | Raise e => (calls, Raise e)
      | Unmodelled => (calls, Unmodelled)
      end
  end.
End calls.

(** Two distinct messages with one digest. *)
Definition sha256_collision (m m' : string) : Prop :=
  m ≠ m' ∧ sha256_hex m = sha256_hex m'.

Definition is_lower_hex (c : ascii) : bool :=
  let n := N_of_ascii c in
  ((48 <=? n)%N && (n <=? 57)%N) || ((97 <=? n)%N && (n <=? 102)%N).

(** ** Task objects for the scenarios *)

(** The attributes that a task object has without its class declaring
    them: those that [luigi.Task] documents, [salt_target], and, to stay
    on the safe side, every name that begins with an underscore. *)
Definition Task_attributes : list string :=
  ["priority"; "disabled"; "resources"; "worker_timeout"; "retry_count";
   "disable_hard_timeout"; "disable_window"; "disable_window_seconds";
   "max_batch_size"; "batchable"; "owner_email"; "use_cmdline_section";
   "event_handler"; "trigger_event"; "accepts_messages"; "task_module";
   "task_namespace"; "get_task_namespace"; "task_family";
   "get_task_family"; "get_params"; "batch_param_names";
   "get_param_names"; "get_param_values"; "param_args"; "initialized";
   "from_str_params"; "to_str_params"; "clone"; "complete";
   "bulk_complete"; "output"; "requires"; "process_resources"; "input";
   "deps"; "run"; "on_failure"; "on_success";
   "no_unpicklable_properties"; "task_id"; "param_kwargs";
   "set_tracking_url"; "set_status_message"; "set_progress_percentage";
   "scheduler_messages"; "salt_target"].

Definition inherited_attribute (name : string) : bool :=
  bool_decide (name ∈ Task_attributes)
  || match name with
     | String c _ => bool_decide (c = "_"%char)
     | EmptyString => false
     end.

(** A task object given by what its class and its constructor fix: the
    class source, the declared parameters with the values given to them,
    what [requires()] returns, and the three settings of [SaltedTask].
    Its attributes are its parameters and the inherited ones. *)
Inductive node : Type := Node {
  node_source : string;
  node_params : list (string * LuigiParameter * pyvalue);
  node_requires : Struct node;
  node_salt_workflow : bool;
  node_salt_parameters : bool;
  node_salt_length : Z
}.

Definition node_kwargs (n : node) : gmap string pyvalue :=
  list_to_map ((λ '(name, _, value), (name, value)) <$> node_params n).

Lemma node_kwargs_bound (n : node) (name : string) (param : LuigiParameter) :
  (name, param) ∈ fst <$> node_params n → is_Some (node_kwargs n !! name).
Proof.
  intros ([[name' param'] value] & [= <- <-] & Hin)%list_elem_of_fmap.
  apply not_eq_None_Some. unfold node_kwargs.
  rewrite <-not_elem_of_list_to_map. intros Hnot. apply Hnot.
  rewrite <-list_fmap_compose. apply list_elem_of_fmap.
  by exists (name, param, value).
Qed.

Global Instance node_luigi : Luigi node := {|
  requires := node_requires;
  getsource := node_source;
  get_params n := fst <$> node_params n;
  param_kwargs := node_kwargs;
  getattr n name := node_kwargs n !! name;
  hasattr n name :=
    bool_decide (is_Some (node_kwargs n !! name)) || inherited_attribute name;
  salt_workflow := node_salt_workflow;
  salt_parameters := node_salt_parameters;
  salt_length := node_salt_length;
  param_kwargs_bound := node_kwargs_bound
|}.

Definition Significant : LuigiParameter := {| significant := true |}.
Definition Insignificant : LuigiParameter := {| significant := false |}.

(** [class Leaf(Task): date = Parameter()], with source text [L]. *)
Definition Leaf (date : pyvalue) : node :=
  Node "L" [("date", Significant, date)] (SList []) true false 6.

(** [class Parent(Task)] with source text [P], an insignificant [date]
    that it hands to the [Leaf] it requires. *)
Definition Parent (date : pyvalue) : node :=
  Node "P" [("date", Insignificant, date)] (STask (Leaf date)) true false 6.

(** A task of a class with source text [R] whose [requires()] returns
    [None] and whose one parameter is insignificant. *)
Definition Plain (note : pyvalue) : node :=
  Node "R" [("note", Insignificant, note)] SNone true false 6.

(** A subclass of [SaltedTask] with source text [S] that requires a
    [Parent] and declares an insignificant [label] next to the three
    parameters it inherits. *)
Definition Salted (workflow : bool) (length : Z) (label : pyvalue) : node :=
  Node "S"
       [("label", Insignificant, label);
        ("salt_workflow", Significant, PyBool workflow);
        ("salt_parameters", Significant, PyBool false);
        ("salt_length", Significant, PyInt length)]
       (SList [STask (Parent (PyDate 2018 3 7))]) workflow false length.

(** A task that requires itself. *)
Inductive looping : Type := Loop.

Global Instance looping_luigi : Luigi looping := {|
  requires _ := STask Loop;
  getsource _ := "loop";
  get_params _ := [];
  param_kwargs _ := ∅;
  getattr _ _ := None;
  hasattr _ name := inherited_attribute name;
  salt_workflow _ := true;
  salt_parameters _ := false;
  salt_length _ := 6;
  param_kwargs_bound _ _ _ Hin := False_ind _ (proj1 (elem_of_nil _) Hin)
|}.

(** A storage target: the path and the keyword arguments it was built
    with. *)
Record LocalTarget : Type := { path : string; format_kw : option string }.


(** ** Vocabulary for the statements about file patterns *)

Definition is_brace (c : ascii) : bool :=
  bool_decide (c = "{"%char ∨ c = "}"%char).

(** Text without braces. *)
Definition literal_text (s : string) : bool :=
  all_chars (λ c, negb (is_brace c)) s.

(** A character that a replacement field collects as part of its name. *)
Definition is_field_char (c : ascii) : bool :=
  bool_decide (c ≠ "{"%char ∧ c ≠ "}"%char ∧ c ≠ "!"%char ∧ c ≠ ":"%char
               ∧ c ≠ "["%char).

(** A character of a plain name: ASCII, not a dot, and without a meaning
    in field syntax. *)
Definition is_name_char (c : ascii) : bool :=
  is_ascii c && is_field_char c && bool_decide (c ≠ "."%char).

Definition plain_name (s : string) : bool :=
  all_chars is_name_char s && negb (bool_decide (s = "")).

(** ** The task classes of the module *)

(** The three settings of lines 70-75 are luigi parameters, declared
    without [significant=False]: a task of a subclass of [SaltedTask]
    lists them among its significant parameters, and its attributes
    [salt_workflow], [salt_parameters] and [salt_length] are their
    values. *)
Definition SaltedTask_parameters {T : Type} `{Luigi T} (task : T) : Prop :=
  (∀ name, name ∈ ["salt_workflow"; "salt_parameters"; "salt_length"] →
           name ∈ significant_names task) ∧
  param_kwargs task !! "salt_workflow" = Some (PyBool (salt_workflow task)) ∧
  param_kwargs task !! "salt_parameters"
  = Some (PyBool (salt_parameters task)) ∧
  param_kwargs task !! "salt_length" = Some (PyInt (salt_length task)).

(** The base class of each class that the module defines. *)
Definition class_bases : gmap string string :=
  list_to_map
    [("SaltedTask", "Task"); ("Streams", "Task");
     ("AggregateArtists", "Task"); ("SVCTask", "SaltedTask");
     ("TrainDigits", "SVCTask"); ("PredictDigits", "SVCTask")].

(** The names that each class body binds; for [luigi.Task], the names
    of its interface that the module uses. *)
Definition class_body : gmap string (list string) :=
  list_to_map
    [("Task", ["requires"; "output"; "input"; "run"; "clone"; "get_params";
               "param_kwargs"]);
     ("SaltedTask", ["salt_workflow"; "salt_parameters"; "salt_length";
                     "salt_target"]);
     ("Streams", ["date"; "run"; "output"]);
     ("AggregateArtists", ["date_interval"; "output"; "requires"; "run"]);
     ("SVCTask", ["__version__"; "c"; "gamma"; "kernel"]);
     ("TrainDigits", ["output"; "run"]);
     ("PredictDigits", ["requires"; "output"; "run"])].

(** Attribute lookup on a class: the class itself, then its bases in
    turn.  The result is the class that binds the name. *)
Fixpoint find_attribute (depth : nat) (cls name : string) : option string :=
  match depth with
  | O => None
  | S depth' =>
      if decide (name ∈ default [] (class_body !! cls)) then Some cls
      else base ← class_bases !! cls; find_attribute depth' base name
  end.

(** [self.salt_target(target_type, file_pattern, **kwargs)] on an instance
    of the class [cls]: the method is looked up first. *)
Definition call_salt_target {T : Type} `{Luigi T} {Target Kwargs : Type}
    (cls : string) (limit : nat) (self : T)
    (target_type : string → Kwargs → Target) (file_pattern : string)
    (kwargs : Kwargs) : outcome Target :=
  match find_attribute 4 cls "salt_target" with
  | Some _ => salt_target limit self target_type file_pattern kwargs
  | None => Raise (AttributeError "salt_target")
  end.

(** The texts that [inspect.getsource] returns for the four task classes
    that are instantiated. *)
Record sources : Type := {
  Streams_source : string;
  AggregateArtists_source : string;
  TrainDigits_source : string;
  PredictDigits_source : string
}.

(** A [luigi.date_interval] value: its text, and the dates it yields when
    iterated. *)
Record date_interval : Type := {
  interval_text : string;
  interval_dates : list pyvalue
}.

(** The parameter values of a task of a subclass of [SVCTask]. *)
Record svc : Type := {
  svc_c : pyvalue;
  svc_gamma : pyvalue;
  svc_kernel : pyvalue;
  svc_salt_workflow : bool;
  svc_salt_parameters : bool;
  svc_salt_length : Z
}.

Definition svc_params (p : svc) : list (string * LuigiParameter * pyvalue) :=
  [("salt_workflow", Significant, PyBool (svc_salt_workflow p));
   ("salt_parameters", Significant, PyBool (svc_salt_parameters p));
   ("salt_length", Significant, PyInt (svc_salt_length p));
   ("c", Significant, svc_c p);
   ("gamma", Significant, svc_gamma p);
   ("kernel", Significant, svc_kernel p)].

(** The pairs of these parameters as [get_salted_version] joins them
    behind the class source. *)
Definition svc_pairs (p : svc) : string :=
  ",c=" +:+ py_repr (svc_c p)
  +:+ ",gamma=" +:+ py_repr (svc_gamma p)
  +:+ ",kernel=" +:+ py_repr (svc_kernel p)
  +:+ ",salt_length=" +:+ decimal (svc_salt_length p)
  +:+ ",salt_parameters=" +:+ py_repr (PyBool (svc_salt_parameters p))
  +:+ ",salt_workflow=" +:+ py_repr (PyBool (svc_salt_workflow p)).

(** [Streams(date=date)] *)
Definition Streams (src : sources) (date : pyvalue) : node :=
  Node (Streams_source src) [("date", Significant, date)] (SList [])
       true false 6.

(** [AggregateArtists(date_interval=...)], with [requires] of lines
    127-128. *)
Definition AggregateArtists (src : sources) (interval : date_interval) : node :=
  Node (AggregateArtists_source src)
       [("date_interval", Significant,
         PyObject (interval_text interval) (interval_text interval))]
       (SList ((λ date, STask (Streams src date)) <$> interval_dates interval))
       true false 6.

(** [TrainDigits(...)]; the class inherits [requires] from [luigi.Task],
    which returns the empty list. *)
Definition TrainDigits (src : sources) (p : svc) : node :=
  Node (TrainDigits_source src) (svc_params p) (SList [])
       (svc_salt_workflow p) (svc_salt_parameters p) (svc_salt_length p).

(** [PredictDigits(...)], with [requires] of lines 171-172: [clone] hands
    every parameter value to the [TrainDigits] it builds. *)
Definition PredictDigits (src : sources) (p : svc) : node :=
  Node (PredictDigits_source src) (svc_params p) (STask (TrainDigits src p))
       (svc_salt_workflow p) (svc_salt_parameters p) (svc_salt_length p).

(** The [output] methods of lines 123-125, 154-155 and 174-175. *)
Definition AggregateArtists_output (src : sources) (limit : nat)
    (interval : date_interval) : outcome LocalTarget :=
  call_salt_target "AggregateArtists" limit (AggregateArtists src interval)
    Build_LocalTarget "data/artist_streams_{self.date_interval}-{salt}.tsv"
    None.

Definition TrainDigits_output (src : sources) (limit : nat) (p : svc)
  : outcome LocalTarget :=
  call_salt_target "TrainDigits" limit (TrainDigits src p)
    Build_LocalTarget "data/model-{salt}.pkl" (Some "Nop").

Definition PredictDigits_output (src : sources) (limit : nat) (p : svc)
  : outcome LocalTarget :=
  call_salt_target "PredictDigits" limit (PredictDigits src p)
    Build_LocalTarget "data/accuracy-{salt}.txt" None.

(** A task with source text [J], no parameters and the given
    requirements. *)
Definition Join (reqs : Struct node) : node :=
  Node "J" [] reqs true false 6.

(** A chain of [n] such tasks above one: each requires the next. *)
Fixpoint chain (n : nat) : node :=
  match n with
  | O => Join (SList [])
  | S n' => Join (SList [STask (chain n')])
  end.

(** * Properties *)

(** ** Text *)

Lemma string_app_cons (c : ascii) (a b : string) :
  String c a +:+ b = String c (a +:+ b).
Proof. reflexivity. Qed.

Lemma string_app_nil (a : string) : "" +:+ a = a.
Proof. reflexivity. Qed.

Lemma string_app_empty_r (s : string) : s +:+ "" = s.
Proof.
  induction s as [|c s IH]; [done|]. by rewrite string_app_cons, IH.
Qed.

Lemma string_app_assoc (a b c : string) : (a +:+ b) +:+ c = a +:+ b +:+ c.
Proof.
  induction a as [|x a IH]; [done|]. by rewrite !string_app_cons, IH.
Qed.

Lemma string_app_length (a b : string) :
  String.length (a +:+ b) = (String.length a + String.length b)%nat.
Proof.
  induction a as [|x a IH]; [done|]. rewrite string_app_cons. cbn.
  by rewrite IH.
Qed.

Lemma string_app_inv_tail (a b c : string) : a +:+ c = b +:+ c → a = b.
Proof.
  revert b. induction a as [|x a IH]; intros [|y b] Heq; [done| | |].
  - apply (f_equal String.length) in Heq.
    rewrite string_app_nil, string_app_length in Heq. cbn in Heq. lia.
  - apply (f_equal String.length) in Heq.
    rewrite string_app_nil, string_app_length in Heq. cbn in Heq. lia.
  - rewrite !string_app_cons in Heq. injection Heq as -> Heq.
    f_equal. by apply IH.
Qed.

Lemma string_app_same_length (a b x y : string) :
  String.length a = String.length b → a +:+ x = b +:+ y → a = b.
Proof.
  revert b. induction a as [|c a IH]; intros [|c' b] Hlen Heq; try done.
  rewrite !string_app_cons in Heq. injection Heq as -> Heq.
  f_equal. apply IH; [|done]. cbn in Hlen. lia.
Qed.

Lemma all_chars_impl (P Q : ascii → bool) (s : string) :
  (∀ c, P c = true → Q c = true) →
  all_chars P s = true → all_chars Q s = true.
Proof.
  intros HPQ. induction s as [|c s IH]; [done|]. cbn.
  intros [Hc Hs]%andb_true_iff. by rewrite (HPQ _ Hc), IH.
Qed.

(** ** Outcomes *)

Lemma Ok_inj {A} (a b : A) : Ok a = Ok b → a = b.
Proof. by intros [= ->]. Qed.

Lemma bind_Ok {A B} (m : outcome A) (k : A → outcome B) (b : B) :
  m ≫= k = Ok b ↔ ∃ a, m = Ok a ∧ k a = Ok b.
Proof.
  destruct m as [a|e|]; cbn; [|split; [done|by intros (? & ? & ?)]..].
  split; [eauto|]. by intros (a' & [= ->] & ?).
Qed.

Lemma for_each_Ok_impl {A S} (body body' : S → A → outcome S) acc l r :
  (∀ acc x r, x ∈ l → body acc x = Ok r → body' acc x = Ok r) →
  for_each body acc l = Ok r → for_each body' acc l = Ok r.
Proof.
  revert acc. induction l as [|x l IH]; intros acc Hb; [done|].
  cbn. intros (acc' & Hx & Hl)%bind_Ok.
  rewrite (Hb _ _ _ (list_elem_of_here _ _) Hx). cbn.
  apply IH; [|done]. intros ???? Hy. apply Hb; [|done]. by constructor.
Qed.

(** A loop that appends what [f] returns for each element appends the
    concatenation of the results. *)
Lemma for_each_append {A} (f : A → outcome string) acc l ds :
  Forall2 (λ x d, f x = Ok d) l ds →
  for_each (λ msg x, d ← f x; Ok (msg +:+ d)) acc l = Ok (acc +:+ join "" ds).
Proof.
  intros Hall. revert acc.
  induction Hall as [|x d l ds Hx Hall IH]; intros acc; cbn.
  { by rewrite string_app_empty_r. }
  rewrite Hx. cbn. rewrite IH, string_app_assoc. do 2 f_equal.
  destruct ds; [by rewrite string_app_empty_r|done].
Qed.

Lemma join_empty_cons (x : string) (l : list string) :
  join "" (x :: l) = x +:+ join "" l.
Proof. destruct l; [by rewrite string_app_empty_r|done]. Qed.

Lemma join_empty_app (l1 l2 : list string) :
  join "" (l1 ++ l2) = join "" l1 +:+ join "" l2.
Proof.
  induction l1 as [|x l1 IH]; [done|].
  cbn [app]. by rewrite !join_empty_cons, IH, string_app_assoc.
Qed.

Lemma for_each_append_inv {A} (f : A → outcome string) acc l r :
  for_each (λ msg x, d ← f x; Ok (msg +:+ d)) acc l = Ok r →
  ∃ ds, Forall2 (λ x d, f x = Ok d) l ds ∧ r = acc +:+ join "" ds.
Proof.
  revert acc. induction l as [|x l IH]; intros acc; cbn.
  { intros [= <-]. exists []. by rewrite string_app_empty_r. }
  intros (acc' & (d & Hx & [= <-])%bind_Ok & Hl)%bind_Ok.
  destruct (IH _ Hl) as (ds & Hall & ->).
  exists (d :: ds). split; [by constructor|].
  rewrite string_app_assoc. do 2 f_equal.
  destruct ds; [by rewrite string_app_empty_r|done].
Qed.

Lemma for_each_append_Forall2 {A} (f g : A → outcome string) acc l l' :
  Forall2 (λ x y, f x = g y) l l' →
  for_each (λ msg x, d ← f x; Ok (msg +:+ d)) acc l
  = for_each (λ msg x, d ← g x; Ok (msg +:+ d)) acc l'.
Proof.
  intros Hall. revert acc.
  induction Hall as [|x y l l' Hxy _ IH]; intros acc; [done|].
  cbn. rewrite Hxy. destruct (g y); cbn; [apply IH|done..].
Qed.

Lemma comprehension_Ok {A B} (f : A → outcome B) l ys :
  comprehension f l = Ok ys ↔ Forall2 (λ x y, f x = Ok y) l ys.
Proof.
  split.
  - revert ys. induction l as [|x l IH]; intros ys; cbn.
    { intros [= <-]. constructor. }
    intros (y & Hx & (ys' & Hl & [= <-])%bind_Ok)%bind_Ok.
    constructor; auto.
  - induction 1 as [|x y l ys Hx _ IH]; cbn; [done|].
    by rewrite Hx; cbn; rewrite IH.
Qed.

Lemma comprehension_ext {A B} (f g : A → outcome B) l :
  (∀ x, x ∈ l → f x = g x) → comprehension f l = comprehension g l.
Proof.
  induction l as [|x l IH]; intros Hfg; [done|]. cbn.
  rewrite (Hfg x), IH; [done| |by constructor].
  intros y Hy. apply Hfg. by constructor.
Qed.

(** ** The shape of a digest *)

Lemma hexchar_lower (n : Z) : is_lower_hex (SHA256.hexchar n) = true.
Proof.
  unfold SHA256.hexchar. destruct n as [|p|p]; try reflexivity.
  repeat (destruct p as [p|p|]; try reflexivity).
Qed.

Lemma sha256_hex_length (msg : string) : String.length (sha256_hex msg) = 64%nat.
Proof.
  unfold sha256_hex. by destruct (SHA256.sha256 (encode msg)).
Qed.

Lemma sha256_hex_lower (msg : string) :
  all_chars is_lower_hex (sha256_hex msg) = true.
Proof.
  unfold sha256_hex. destruct (SHA256.sha256 (encode msg)).
  unfold SHA256.hexdigest, SHA256.hexword, SHA256.nibble. cbn [all_chars].
  rewrite !hexchar_lower. reflexivity.
Qed.

(** ** The digest function *)

Section digest.
Context {T : Type} `{Luigi T}.
Implicit Types (task req : T) (limit : nat).

Lemma get_salted_version_unfold limit task :
  get_salted_version (S limit) task
  = (msg ← hashed_message limit task; Ok (sha256_hex msg)).
Proof.
  unfold hashed_message, self_message, lineage_message. cbn.
  destruct (for_each _ _ _); [cbn|done..].
  by destruct (param_pairs task).
Qed.

(** A digest returned at one recursion depth is returned at every larger
    one. *)
Lemma get_salted_version_mono limit limit' task d :
  (limit ≤ limit')%nat →
  get_salted_version limit task = Ok d →
  get_salted_version limit' task = Ok d.
Proof.
  revert limit' task d. induction limit as [|limit IH]; [done|].
  intros [|limit'] task d Hle; [lia|].
  rewrite !get_salted_version_unfold.
  intros (m & Hm & [= <-])%bind_Ok. apply bind_Ok. exists m. split; [|done].
  revert Hm. unfold hashed_message.
  intros (lin & Hlin & Hrest)%bind_Ok. apply bind_Ok. exists lin.
  split; [|done]. revert Hlin. unfold lineage_message.
  apply for_each_Ok_impl. intros acc req r _.
  intros (dr & Hdr & [= <-])%bind_Ok.
  rewrite (IH limit' req dr); [done|lia|done].
Qed.

Lemma lineage_message_nil limit task :
  flatten (requires task) = [] → lineage_message limit task = Ok "".
Proof. unfold lineage_message. by intros ->. Qed.

Lemma lineage_message_Ok limit task ds :
  Forall2 (λ req d, get_salted_version limit req = Ok d)
          (flatten (requires task)) ds →
  lineage_message limit task = Ok (join "" ds).
Proof. intros Hall. unfold lineage_message. by rewrite (for_each_append _ _ _ ds). Qed.

Lemma get_salted_version_length task limit d :
  get_salted_version limit task = Ok d → String.length d = 64%nat.
Proof.
  destruct limit as [|limit]; [done|]. rewrite get_salted_version_unfold.
  intros (msg & _ & [= <-])%bind_Ok. apply sha256_hex_length.
Qed.

(** The digests of the requirements, when the lineage is computed. *)
Lemma lineage_message_digests task limit lin :
  lineage_message limit task = Ok lin →
  ∃ ds, Forall2 (λ req d, get_salted_version limit req = Ok d)
                (flatten (requires task)) ds ∧ lin = join "" ds.
Proof. intros (ds & Hall & ->)%for_each_append_inv. by exists ds. Qed.


(** The lineage counts 64 characters for each requirement. *)
Lemma lineage_message_length task limit lin :
  lineage_message limit task = Ok lin →
  String.length lin = (64 * length (flatten (requires task)))%nat.
Proof.
  intros (ds & Hall & ->)%lineage_message_digests.
  induction Hall as [|req d reqs ds Hd _ IH]; [done|].
  rewrite join_empty_cons, string_app_length, IH.
  rewrite (get_salted_version_length _ _ _ Hd). cbn [length]. lia.
Qed.
End digest.

(** ** The self message *)

Lemma join_singleton (sep x : string) : join sep [x] = x.
Proof. reflexivity. Qed.

Lemma join_cons (sep x y : string) (l : list string) :
  join sep (x :: y :: l) = x +:+ sep +:+ join sep (y :: l).
Proof. reflexivity. Qed.

(** The joined text around one item does not depend on the item. *)
Lemma join_middle (sep : string) (xs zs : list string) :
  ∃ a b, ∀ y, join sep (xs ++ y :: zs) = a +:+ y +:+ b.
Proof.
  induction xs as [|x xs (a & b & IH)].
  - exists "", (match zs with [] => "" | _ => sep +:+ join sep zs end).
    intros y. destruct zs; cbn [app]; [|done].
    by rewrite join_singleton, string_app_nil, string_app_empty_r.
  - exists (x +:+ sep +:+ a), b. intros y.
    assert (∃ w ws, xs ++ y :: zs = w :: ws) as (w & ws & Heq).
    { destruct xs; cbn; eauto. }
    cbn [app]. rewrite Heq, join_cons, <-Heq, IH.
    by rewrite !string_app_assoc.
Qed.

Section self_message.
Context {T : Type} `{Luigi T}.
Implicit Types (task : T).

Lemma significant_sorted_Permutation task :
  significant_sorted task
  ≡ₚ filter (λ '(_, param), significant param = true) (get_params task).
Proof.
  unfold significant_sorted, sorted. by rewrite merge_sort_Permutation.
Qed.

Lemma significant_sorted_names task :
  (significant_sorted task).*1 ≡ₚ significant_names task.
Proof.
  unfold significant_names. by rewrite significant_sorted_Permutation.
Qed.

Lemma param_pairs_eq task :
  param_pairs task = comprehension (pair_of task) (significant_sorted task).
Proof. reflexivity. Qed.

Lemma param_pairs_none task :
  significant_names task = [] → param_pairs task = Ok [].
Proof.
  intros Hnone. rewrite param_pairs_eq.
  pose proof (significant_sorted_names task) as Hp. rewrite Hnone in Hp.
  apply Permutation_nil_r, fmap_nil_inv in Hp. by rewrite Hp.
Qed.

Lemma param_pairs_single task name value :
  significant_names task = [name] →
  param_kwargs task !! name = Some value →
  param_pairs task = Ok [name +:+ "=" +:+ py_repr value].
Proof.
  intros Hone Hv. rewrite param_pairs_eq.
  pose proof (significant_sorted_names task) as Hp. rewrite Hone in Hp.
  apply Permutation_singleton_r in Hp.
  destruct (significant_sorted task) as [|[n par] [|??]]; simplify_eq/=.
  unfold subscript. by rewrite Hv.
Qed.

(** Tasks of one class whose significant parameters have the same values
    have the same pairs. *)
Lemma param_pairs_ext task task' :
  get_params task = get_params task' →
  (∀ name, name ∈ significant_names task →
           param_kwargs task !! name = param_kwargs task' !! name) →
  param_pairs task = param_pairs task'.
Proof.
  intros Hparams Hsame. rewrite !param_pairs_eq.
  unfold significant_sorted at 2. rewrite <-Hparams.
  apply comprehension_ext. intros [name par] Hin. cbn.
  unfold subscript. rewrite Hsame; [done|].
  rewrite <-significant_sorted_names.
  apply list_elem_of_fmap. by exists (name, par).
Qed.
End self_message.

(** ** Scenarios of single tasks *)

Section scenarios.
Context {T : Type} `{Luigi T}.
Implicit Types (task : T).

(** C10: a task with no requirements and no significant parameters has
    the digest of its class source, with nothing appended to it. *)
Theorem source_only_digest task limit :
  flatten (requires task) = [] →
  significant_names task = [] →
  hashed_message limit task = Ok (getsource task) ∧
  get_salted_version (S limit) task = Ok (sha256_hex (getsource task)).
Proof.
  intros Hreq Hsig.
  assert (hashed_message limit task = Ok (getsource task)) as Hm.
  { unfold hashed_message, self_message.
    by rewrite (lineage_message_nil _ _ Hreq), (param_pairs_none _ Hsig). }
  split; [done|]. by rewrite get_salted_version_unfold, Hm.
Qed.

(** C1, as amended: for a task with no requirements, source text [L] and
    the one significant parameter [date] whose value renders as
    [2018-03-07], the hashed message is the source, a comma and the pair
    [date=2018-03-07], and the digest is its SHA-256 in hexadecimal. *)
Theorem leaf_digest_comma_joined task limit value :
  flatten (requires task) = [] →
  getsource task = "L" →
  significant_names task = ["date"] →
  param_kwargs task !! "date" = Some value →
  py_repr value = "2018-03-07" →
  hashed_message limit task = Ok ("L" +:+ "," +:+ "date=2018-03-07") ∧
  get_salted_version (S limit) task
  = Ok (sha256_hex ("L" +:+ "," +:+ "date=2018-03-07")).
Proof.
  intros Hreq Hsrc Hsig Hv Hrepr.
  assert (hashed_message limit task
          = Ok ("L" +:+ "," +:+ "date=2018-03-07")) as Hm.
  { unfold hashed_message, self_message.
    rewrite (lineage_message_nil _ _ Hreq).
    by rewrite (param_pairs_single _ _ _ Hsig Hv), Hsrc, Hrepr. }
  split; [done|]. by rewrite get_salted_version_unfold, Hm.
Qed.
End scenarios.

Lemma source_only_digest_witness :
  hashed_message 0 (Plain (PyStr "x")) = Ok "R" ∧
  get_salted_version 1 (Plain (PyStr "x")) = Ok (sha256_hex "R").
Proof.
  exact (source_only_digest (Plain (PyStr "x")) 0 eq_refl eq_refl).
Defined.

Lemma leaf_digest_comma_joined_witness :
  hashed_message 0 (Leaf (PyObject "2018-03-07" "2018-03-07"))
  = Ok "L,date=2018-03-07" ∧
  get_salted_version 1 (Leaf (PyObject "2018-03-07" "2018-03-07"))
  = Ok (sha256_hex "L,date=2018-03-07").
Proof.
  exact (leaf_digest_comma_joined
           (Leaf (PyObject "2018-03-07" "2018-03-07")) 0
           (PyObject "2018-03-07" "2018-03-07")
           eq_refl eq_refl eq_refl eq_refl eq_refl).
Defined.

(** C1, as stated, fails: the task below has no requirements, source text
    [L] and the one significant parameter [date], rendered [2018-03-07],
    and its digest is not that of [Ldate=2018-03-07]. *)
Lemma leaf_digest_not_plain_concatenation :
  let leaf := Leaf (PyObject "2018-03-07" "2018-03-07") in
  flatten (requires leaf) = [] ∧
  getsource leaf = "L" ∧
  significant_names leaf = ["date"] ∧
  py_repr <$> param_kwargs leaf !! "date" = Some "2018-03-07" ∧
  get_salted_version 1 leaf
  = Ok "1b19b0a994292160e7589337e724fa174edd9d1194ae8deff80976ab097c064c" ∧
  sha256_hex ("L" +:+ "date=2018-03-07")
  = "5401a8c064df73005bb9b24097469879045d28691a85921d1373f187bd627675" ∧
  ∀ limit, get_salted_version limit leaf
           ≠ Ok (sha256_hex ("L" +:+ "date=2018-03-07")).
Proof.
  cbn zeta. do 6 (split; [vm_compute; reflexivity|]).
  intros [|limit]; [discriminate|]. vm_compute. discriminate.
Qed.

(** ** What the digest depends on *)

Section dependence.
Context {T : Type} `{Luigi T}.
Implicit Types (task req : T) (limit : nat).

(** Two task objects with the same requirements, class source and
    declared parameters, and the same values for the significant ones,
    get the same outcome at every depth. *)
Lemma get_salted_version_ext task task' limit :
  requires task = requires task' →
  getsource task = getsource task' →
  get_params task = get_params task' →
  (∀ name, name ∈ significant_names task →
           param_kwargs task !! name = param_kwargs task' !! name) →
  hashed_message limit task = hashed_message limit task' ∧
  get_salted_version (S limit) task = get_salted_version (S limit) task'.
Proof.
  intros Hreq Hsrc Hparams Hsame.
  assert (hashed_message limit task = hashed_message limit task') as Hm.
  { unfold hashed_message, self_message, lineage_message.
    by rewrite Hreq, Hsrc, (param_pairs_ext task task' Hparams Hsame). }
  split; [done|]. by rewrite !get_salted_version_unfold, Hm.
Qed.

(** The outcome of the function with its calls is that of the function. *)
Lemma lineage_io_outcome (callee : T → list (event T) * outcome string)
    (f : T → outcome string) (msg : string) (reqs : list T) :
  (∀ req, (callee req).2 = f req) →
  (lineage_io callee msg reqs).2
  = for_each (λ msg req, salted ← f req; Ok (msg +:+ salted)) msg reqs.
Proof.
  intros Hf. revert msg. induction reqs as [|req reqs IH]; intros msg; [done|].
  cbn [lineage_io for_each]. rewrite <-(Hf req).
  destruct (callee req) as [calls [salted|e|]]; cbn; [|done..].
  rewrite <-IH. by destruct (lineage_io callee (msg +:+ salted) reqs).
Qed.

Lemma get_salted_version_io_outcome limit task :
  (get_salted_version_io limit task).2 = get_salted_version limit task.
Proof.
  revert task. induction limit as [|limit IH]; intros task; [done|].
  rewrite get_salted_version_unfold.
  unfold hashed_message, lineage_message, self_message.
  rewrite <-(lineage_io_outcome (get_salted_version_io limit) _ _ _ IH).
  cbn [get_salted_version_io].
  destruct (lineage_io _ _ _) as [calls [msg|e|]]; cbn; [|done..].
  by destruct (param_pairs task).
Qed.

(** A call in the loop is a call of one of the callees. *)
Lemma lineage_io_calls (callee : T → list (event T) * outcome string)
    (msg : string) (reqs : list T) (e : event T) :
  e ∈ (lineage_io callee msg reqs).1 →
  ∃ req, req ∈ reqs ∧ e ∈ (callee req).1.
Proof.
  revert msg. induction reqs as [|req reqs IH]; intros msg; cbn [lineage_io].
  { intros Hin. by apply elem_of_nil in Hin. }
  destruct (callee req) as [calls salted] eqn:Hreq.
  assert (e ∈ calls → ∃ r, r ∈ req :: reqs ∧ e ∈ (callee r).1) as Hhere.
  { intros Hin. exists req. split; [by left|]. by rewrite Hreq. }
  destruct salted as [salted|x|]; cbn; [|done..].
  destruct (lineage_io callee (msg +:+ salted) reqs) as [calls' r] eqn:Hrest.
  cbn. intros [Hin|Hin]%elem_of_app; [auto|].
  destruct (IH (msg +:+ salted)) as (r' & Hr' & Hcall).
  { by rewrite Hrest. }
  exists r'. split; [by right|done].
Qed.

(** When the loop ends, every callee has returned and its calls are among
    those of the loop. *)
Lemma lineage_io_Ok (callee : T → list (event T) * outcome string)
    (msg : string) (reqs : list T) (r : string) (req : T) :
  (lineage_io callee msg reqs).2 = Ok r →
  req ∈ reqs →
  (∃ d, (callee req).2 = Ok d) ∧
  ∀ e, e ∈ (callee req).1 → e ∈ (lineage_io callee msg reqs).1.
Proof.
  revert msg. induction reqs as [|x reqs IH]; intros msg; cbn [lineage_io].
  { intros _ Hin. by apply elem_of_nil in Hin. }
  destruct (callee x) as [calls salted] eqn:Hx.
  destruct salted as [salted|?|]; cbn; [|done..].
  destruct (lineage_io callee (msg +:+ salted) reqs) as [calls' r'] eqn:Hrest.
  cbn. intros -> [->|Hin]%elem_of_cons.
  - rewrite Hx. cbn. split; [eauto|]. intros e He. apply elem_of_app. auto.
  - destruct (IH (msg +:+ salted)) as [Hd Hcalls]; [by rewrite Hrest|done|].
    split; [done|]. intros e He. apply elem_of_app. right.
    specialize (Hcalls e He). by rewrite Hrest in Hcalls.
Qed.

(** Only classes of tasks in the graph below the task are inspected. *)
Lemma get_salted_version_io_reachable limit task t :
  Getsource t ∈ (get_salted_version_io limit task).1 → reachable task t.
Proof.
  revert task. induction limit as [|limit IH]; intros task;
    cbn [get_salted_version_io].
  { intros Hin. by apply elem_of_nil in Hin. }
  destruct (lineage_io _ _ _) as [calls lineage] eqn:Hlin.
  assert (Getsource t ∈ calls → reachable task t) as Hcalls.
  { intros Hin.
    destruct (lineage_io_calls (get_salted_version_io limit) ""
                (flatten (requires task)) (Getsource t))
      as (req & Hreq & Hcall); [by rewrite Hlin|].
    eapply reachable_step; eauto. }
  destruct lineage as [msg|e|]; cbn; [|done..].
  intros [Hin|Hin]%elem_of_app; [auto|].
  apply list_elem_of_singleton in Hin as [= ->]. constructor.
Qed.

(** A call that returns has inspected the class of every such task. *)
Lemma get_salted_version_io_all limit task t d :
  (get_salted_version_io limit task).2 = Ok d →
  reachable task t →
  Getsource t ∈ (get_salted_version_io limit task).1.
Proof.
  intros Hd Hreach. revert limit d Hd.
  induction Hreach as [task|task req t Hreq Hreach IH];
    intros [|limit] d; cbn [get_salted_version_io]; try done.
  - destruct (lineage_io _ _ _) as [calls [msg|e|]]; cbn; try done.
    intros _. apply elem_of_app. right. by apply list_elem_of_singleton.
  - destruct (lineage_io _ _ _) as [calls lineage] eqn:Hlin.
    destruct lineage as [msg|e|]; cbn; try done. intros _.
    destruct (lineage_io_Ok (get_salted_version_io limit) ""
                (flatten (requires task)) msg req)
      as [[dr Hdr] Hcalls]; [by rewrite Hlin|done|].
    apply elem_of_app. left. rewrite Hlin in Hcalls. apply Hcalls.
    by eapply IH.
Qed.

Lemma get_salted_version_io_last limit task d :
  (get_salted_version_io limit task).2 = Ok d →
  last (get_salted_version_io limit task).1 = Some (Getsource task).
Proof.
  destruct limit as [|limit]; [done|]. cbn [get_salted_version_io].
  destruct (lineage_io _ _ _) as [calls [msg|e|]]; cbn; try done.
  intros _. apply last_snoc.
Qed.


(** C2: a task with the one requirement [leaf], source text [P] and no
    significant parameter has the digest of [digest(leaf)] followed by
    [P]; and when the requirement is replaced by one with another digest,
    the hashed message changes, and the digest with it unless SHA-256
    collides on the two messages. *)
Theorem parent_digest parent leaf limit d :
  flatten (requires parent) = [leaf] →
  getsource parent = "P" →
  significant_names parent = [] →
  get_salted_version limit leaf = Ok d →
  get_salted_version (S limit) parent = Ok (sha256_hex (d +:+ "P")) ∧
  ∀ parent' leaf' d',
    flatten (requires parent') = [leaf'] →
    getsource parent' = "P" →
    significant_names parent' = [] →
    get_salted_version limit leaf' = Ok d' →
    d' ≠ d →
    hashed_message limit parent = Ok (d +:+ "P") ∧
    hashed_message limit parent' = Ok (d' +:+ "P") ∧
    d' +:+ "P" ≠ d +:+ "P" ∧
    (¬ sha256_collision (d' +:+ "P") (d +:+ "P") →
     get_salted_version (S limit) parent'
     ≠ get_salted_version (S limit) parent).
Proof.
  assert (∀ p l e, flatten (requires p) = [l] → getsource p = "P" →
                   significant_names p = [] →
                   get_salted_version limit l = Ok e →
                   hashed_message limit p = Ok (e +:+ "P")) as Hmsg.
  { intros p l e Hreq Hsrc Hsig Hl.
    unfold hashed_message, self_message.
    rewrite (lineage_message_Ok limit p [e]), (param_pairs_none _ Hsig).
    - by rewrite Hsrc.
    - rewrite Hreq. by repeat constructor. }
  intros Hreq Hsrc Hsig Hd. split.
  { by rewrite get_salted_version_unfold, (Hmsg _ _ _ Hreq Hsrc Hsig Hd). }
  intros parent' leaf' d' Hreq' Hsrc' Hsig' Hd' Hne.
  assert (d' +:+ "P" ≠ d +:+ "P") as Hmne.
  { intros Heq. by apply string_app_inv_tail in Heq. }
  pose proof (Hmsg _ _ _ Hreq Hsrc Hsig Hd) as Hm.
  pose proof (Hmsg _ _ _ Hreq' Hsrc' Hsig' Hd') as Hm'.
  split; [exact Hm|]. split; [exact Hm'|]. split; [exact Hmne|].
  intros Hcoll. rewrite !get_salted_version_unfold, Hm, Hm'.
  intros Heq%Ok_inj. apply Hcoll. split; assumption.
Qed.
End dependence.




Lemma parent_digest_witness :
  get_salted_version 2 (Parent (PyDate 2018 3 7))
  = Ok (sha256_hex
          ("a27a6bc56113b8b0a609e4a4e5621c05d56b78b5d2a0e38f79efe38dfe8c8257"
           +:+ "P")) ∧
  get_salted_version 2 (Parent (PyDate 2018 3 8))
  ≠ get_salted_version 2 (Parent (PyDate 2018 3 7)).
Proof.
  destruct (parent_digest (Parent (PyDate 2018 3 7)) (Leaf (PyDate 2018 3 7)) 1
    "a27a6bc56113b8b0a609e4a4e5621c05d56b78b5d2a0e38f79efe38dfe8c8257")
    as [Hparent Hchange];
    [reflexivity|reflexivity|reflexivity|vm_compute; reflexivity|].
  split; [exact Hparent|].
  destruct (Hchange (Parent (PyDate 2018 3 8)) (Leaf (PyDate 2018 3 8))
    "7bf216360219559cfeb8ec1f1cd7227ee01451ec0ab51d8233d2e71a481db001")
    as (_ & _ & _ & Hdigest);
    [reflexivity|reflexivity|reflexivity|vm_compute; reflexivity
    |discriminate|].
  apply Hdigest. intros [_ Heq]. revert Heq. vm_compute. discriminate.
Defined.

(** ** [repr] tells the values of the embedded types apart *)

Lemma decimal_inj (n n' : Z) : decimal n = decimal n' → n = n'.
Proof.
  unfold decimal. intros Heq.
  apply (f_equal NilEmpty.int_of_string) in Heq.
  rewrite !NilEmpty.isi in Heq. injection Heq as Heq.
  by rewrite <-(DecimalZ.of_to n), <-(DecimalZ.of_to n'), Heq.
Qed.

Lemma string_of_uint_digits (u : Decimal.uint) :
  all_chars is_digit (NilEmpty.string_of_uint u) = true.
Proof. induction u; cbn; by rewrite ?IHu. Qed.

Lemma decimal_chars (n : Z) : all_chars is_decimal_char (decimal n) = true.
Proof.
  unfold decimal. destruct (Z.to_int n) as [u|u]; cbn.
  - eapply all_chars_impl; [|apply string_of_uint_digits].
    intros c Hc. unfold is_decimal_char. by rewrite Hc.
  - eapply all_chars_impl; [|apply string_of_uint_digits].
    intros c Hc. unfold is_decimal_char. by rewrite Hc.
Qed.

(** Two texts of decimal characters, each followed by the same other
    character, end at the same place. *)
Lemma decimal_prefix_unique (a a' r r' : string) (c : ascii) :
  is_decimal_char c = false →
  all_chars is_decimal_char a = true →
  all_chars is_decimal_char a' = true →
  a +:+ String c r = a' +:+ String c r' → a = a' ∧ r = r'.
Proof.
  intros Hc. revert a'. induction a as [|x a IH]; intros [|x' a'] Ha Ha' Heq.
  - rewrite !string_app_nil in Heq. by injection Heq as ->.
  - rewrite string_app_nil, string_app_cons in Heq. injection Heq as <- _.
    cbn in Ha'. by rewrite Hc in Ha'.
  - rewrite string_app_nil, string_app_cons in Heq. injection Heq as -> _.
    cbn in Ha. by rewrite Hc in Ha.
  - rewrite !string_app_cons in Heq. injection Heq as -> Heq.
    cbn in Ha, Ha'. apply andb_true_iff in Ha as [_ Ha].
    apply andb_true_iff in Ha' as [_ Ha'].
    destruct (IH a' Ha Ha' Heq) as [-> ->]. done.
Qed.

Lemma unrepr_repr_char (quote c : ascii) (rest : string) :
  quote = squote ∨ quote = dquote →
  unrepr_body quote (repr_char quote c +:+ rest)
  = String c <$> unrepr_body quote rest.
Proof.
  intros [-> | ->]; destruct c as [[] [] [] [] [] [] [] []]; reflexivity.
Qed.

Lemma unrepr_repr_body (quote : ascii) (s : string) :
  quote = squote ∨ quote = dquote →
  unrepr_body quote (repr_body quote s) = Some s.
Proof.
  intros Hq. induction s as [|c s IH]; cbn [repr_body].
  - cbn. by rewrite decide_True.
  - by rewrite unrepr_repr_char, IH.
Qed.

Lemma repr_quote_cases (s : string) :
  repr_quote s = squote ∨ repr_quote s = dquote.
Proof. unfold repr_quote. destruct (_ && _); auto. Qed.

Lemma repr_str_inj (s s' : string) : repr_str s = repr_str s' → s = s'.
Proof.
  unfold repr_str. intros Heq. injection Heq as Hq Hbody.
  rewrite <-Hq in Hbody. apply (f_equal (unrepr_body (repr_quote s))) in Hbody.
  rewrite !unrepr_repr_body in Hbody by apply repr_quote_cases.
  by injection Hbody.
Qed.

Lemma decimal_head (n : Z) (c : ascii) (rest : string) :
  is_decimal_char c = false → decimal n ≠ String c rest.
Proof.
  intros Hc Heq. pose proof (decimal_chars n) as Hn. rewrite Heq in Hn.
  cbn in Hn. by rewrite Hc in Hn.
Qed.

Lemma repr_str_head (s : string) (c : ascii) (rest : string) :
  c ≠ squote → c ≠ dquote → repr_str s ≠ String c rest.
Proof.
  unfold repr_str. intros Hs Hd [= Hq _].
  destruct (repr_quote_cases s); congruence.
Qed.

Lemma decimal_not_repr_str (n : Z) (s : string) : decimal n ≠ repr_str s.
Proof.
  unfold repr_str. destruct (repr_quote_cases s) as [-> | ->];
    by apply decimal_head.
Qed.

(** Two values of the embedded types with one [repr] are one value. *)
Lemma py_repr_inj (v v' : pyvalue) :
  builtin v → builtin v' → py_repr v = py_repr v' → v = v'.
Proof.
  destruct v as [|[]|n|s|y m d|]; intros Hv; [..|done];
    destruct v' as [|[]|n'|s'|y' m' d'|]; intros Hv' Heq; [..|done];
    try done; cbn [py_repr] in Heq;
    rewrite ?string_app_cons in Heq;
    try (by symmetry in Heq; apply decimal_head in Heq);
    try (by apply decimal_head in Heq);
    try (by symmetry in Heq; apply repr_str_head in Heq);
    try (by apply repr_str_head in Heq);
    try (by symmetry in Heq; apply decimal_not_repr_str in Heq);
    try (by apply decimal_not_repr_str in Heq).
  - by rewrite (decimal_inj _ _ Heq).
  - by rewrite (repr_str_inj _ _ Heq).
  - injection Heq as Heq. rewrite !string_app_nil in Heq.
    apply decimal_prefix_unique in Heq as [Hy Heq];
      [|done|apply decimal_chars..].
    injection Heq as Heq.
    apply decimal_prefix_unique in Heq as [Hm Heq];
      [|done|apply decimal_chars..].
    injection Heq as Heq.
    apply decimal_prefix_unique in Heq as [Hd _];
      [|done|apply decimal_chars..].
    by rewrite (decimal_inj _ _ Hy), (decimal_inj _ _ Hm), (decimal_inj _ _ Hd).
Qed.

(** ** The order and the rendering of the significant parameters *)

Global Instance name_le_transitive : Transitive name_le.
Proof. intros x y z. unfold name_le. apply transitivity. Qed.

Global Instance name_le_total : Total name_le.
Proof. intros x y. unfold name_le. apply total, _. Qed.

Lemma StronglySorted_filter {A} (R : relation A) (P : A → Prop)
    `{∀ x, Decision (P x)} (l : list A) :
  StronglySorted R l → StronglySorted R (filter P l).
Proof.
  induction 1 as [|x l _ IH Hx]; [constructor|].
  rewrite filter_cons. destruct (decide (P x)); [|done].
  constructor; [done|].
  apply Forall_forall. intros y [_ Hy]%list_elem_of_filter.
  by eapply Forall_forall in Hx.
Qed.

Lemma Forall2_functional {A B} (f g : A → outcome B) l ys ys' :
  (∀ x, x ∈ l → f x = g x) →
  Forall2 (λ x y, f x = Ok y) l ys →
  Forall2 (λ x y, g x = Ok y) l ys' →
  ys = ys'.
Proof.
  intros Hfg Hf. revert ys'.
  induction Hf as [|x y l ys Hx _ IH]; intros ys' Hg.
  { by apply Forall2_nil_inv_l in Hg. }
  apply Forall2_cons_inv_l in Hg as (y' & ys'' & Hy' & Hg & ->).
  rewrite <-Hfg, Hx in Hy' by constructor. apply Ok_inj in Hy' as <-.
  f_equal. apply IH; [|done]. intros z Hz. apply Hfg. by constructor.
Qed.

Section rendering.
Context {T : Type} `{Luigi T}.
Implicit Types (task : T) (limit : nat).

Lemma pair_of_Ok task name par y :
  pair_of task (name, par) = Ok y ↔
  ∃ v, param_kwargs task !! name = Some v ∧ y = name +:+ "=" +:+ py_repr v.
Proof.
  unfold pair_of, subscript.
  destruct (param_kwargs task !! name) as [v|]; cbn.
  - split; [intros [= <-]; eauto|]. by intros (? & [= <-] & ->).
  - split; [done|]. by intros (? & ? & ?).
Qed.

Lemma significant_sorted_sorted task :
  StronglySorted String.le (significant_sorted task).*1.
Proof.
  apply (StronglySorted_fmap _ name_le); [done|].
  apply StronglySorted_filter, StronglySorted_merge_sort; apply _.
Qed.

(** The pairs are those of the significant parameters, by ascending
    name, each with the [repr] of its value. *)
Lemma param_pairs_sorted task pairs :
  param_pairs task = Ok pairs →
  ∃ ps : list (string * pyvalue),
    pairs = (λ '(name, v), name +:+ "=" +:+ py_repr v) <$> ps ∧
    ps.*1 = (significant_sorted task).*1 ∧
    Forall (λ '(name, v), param_kwargs task !! name = Some v) ps.
Proof.
  rewrite param_pairs_eq. intros Hall%comprehension_Ok.
  induction Hall as [|[name par] y l ys Hx _ (ps & -> & Hnames & Hps)].
  { by exists []. }
  apply (pair_of_Ok task) in Hx as (v & Hv & ->).
  exists ((name, v) :: ps). cbn. rewrite Hnames.
  split; [done|]. split; [done|]. by constructor.
Qed.

(** A change of the rendering of one significant parameter changes the
    hashed message. *)
Lemma significant_change task task' limit name v v' m m' :
  requires task = requires task' →
  getsource task = getsource task' →
  get_params task = get_params task' →
  NoDup (significant_names task) →
  name ∈ significant_names task →
  param_kwargs task !! name = Some v →
  param_kwargs task' !! name = Some v' →
  (∀ other, other ∈ significant_names task → other ≠ name →
            param_kwargs task !! other = param_kwargs task' !! other) →
  py_repr v ≠ py_repr v' →
  hashed_message limit task = Ok m →
  hashed_message limit task' = Ok m' →
  m ≠ m'.
Proof.
  intros Hreq Hsrc Hparams Hnodup Hin Hv Hv' Hothers Hrepr.
  unfold hashed_message, self_message.
  intros (lin & Hlin & (s & (pairs & Hpairs & [= <-])%bind_Ok
                          & [= <-])%bind_Ok)%bind_Ok.
  intros (lin' & Hlin' & (s' & (pairs' & Hpairs' & [= <-])%bind_Ok
                            & [= <-])%bind_Ok)%bind_Ok.
  assert (lin' = lin) as ->.
  { unfold lineage_message in *. rewrite Hreq in Hlin. congruence. }
  change (comprehension (pair_of task) (significant_sorted task)
          = Ok pairs) in Hpairs.
  change (comprehension (pair_of task') (significant_sorted task')
          = Ok pairs') in Hpairs'.
  assert (significant_sorted task' = significant_sorted task) as Hsorted.
  { unfold significant_sorted. by rewrite Hparams. }
  rewrite Hsorted in Hpairs'. clear Hsorted.
  assert (∀ other, other ∈ (significant_sorted task).*1 → other ≠ name →
            param_kwargs task !! other = param_kwargs task' !! other)
    as Hothers'.
  { intros other Ho. apply Hothers. by rewrite <-significant_sorted_names. }
  clear Hothers. rename Hothers' into Hothers.
  rewrite <-significant_sorted_names in Hnodup, Hin.
  apply list_elem_of_fmap in Hin as ([name' par] & -> & Hin).
  cbn [fst] in Hv, Hv', Hothers.
  apply list_elem_of_split in Hin as (l1 & l2 & Hsplit).
  rewrite Hsplit in Hpairs, Hpairs', Hnodup, Hothers.
  rewrite fmap_app, fmap_cons in Hnodup, Hothers.
  apply NoDup_app in Hnodup as (_ & Hl1 & [Hl2 _]%NoDup_cons).
  apply comprehension_Ok, Forall2_app_inv_l in Hpairs
    as (p1 & p2 & Hp1 & Hp2 & ->).
  apply comprehension_Ok, Forall2_app_inv_l in Hpairs'
    as (p1' & p2' & Hp1' & Hp2' & ->).
  apply Forall2_cons_inv_l in Hp2 as (y & q2 & Hy & Hq2 & ->).
  apply Forall2_cons_inv_l in Hp2' as (y' & q2' & Hy' & Hq2' & ->).
  assert (∀ x, x ∈ l1 ∨ x ∈ l2 → pair_of task x = pair_of task' x) as Hsame.
  { intros [other par'] Hx. unfold pair_of, subscript. cbn in *.
    rewrite Hothers; [done| |].
    - rewrite elem_of_app, elem_of_cons, !list_elem_of_fmap.
      destruct Hx; [left|right; right]; by exists (other, par').
    - intros ->. destruct Hx as [Hx|Hx].
      + apply (Hl1 name'); [|by left].
        apply list_elem_of_fmap. by exists (name', par').
      + apply Hl2. apply list_elem_of_fmap. by exists (name', par'). }
  assert (p1' = p1) as ->.
  { symmetry. eapply Forall2_functional; [|exact Hp1|exact Hp1']. auto. }
  assert (q2' = q2) as ->.
  { symmetry. eapply Forall2_functional; [|exact Hq2|exact Hq2']. auto. }
  apply (pair_of_Ok task) in Hy as (w & Hw & ->).
  apply (pair_of_Ok task') in Hy' as (w' & Hw' & ->).
  cbn in Hw, Hw'. rewrite Hv in Hw. rewrite Hv' in Hw'. simplify_eq.
  destruct (join_middle "," (getsource task :: p1) q2) as (a & b & Hjoin).
  rewrite <-Hsrc. cbn [app] in Hjoin.
  change (lin +:+ join "," (getsource task :: p1
                              ++ (name' +:+ "=" +:+ py_repr w) :: q2)
          ≠ lin +:+ join "," (getsource task :: p1
                                ++ (name' +:+ "=" +:+ py_repr w') :: q2)).
  rewrite !Hjoin.
  intros Heq. apply Hrepr.
  do 2 apply String.app_inj in Heq. apply string_app_inv_tail in Heq.
  by do 2 apply String.app_inj in Heq.
Qed.

(** The same on the self message alone. *)
Lemma significant_change_self task task' name v v' s s' :
  getsource task = getsource task' →
  get_params task = get_params task' →
  NoDup (significant_names task) →
  name ∈ significant_names task →
  param_kwargs task !! name = Some v →
  param_kwargs task' !! name = Some v' →
  (∀ other, other ∈ significant_names task → other ≠ name →
            param_kwargs task !! other = param_kwargs task' !! other) →
  py_repr v ≠ py_repr v' →
  self_message task = Ok s →
  self_message task' = Ok s' →
  s ≠ s'.
Proof.
  intros Hsrc Hparams Hnodup Hin Hv Hv' Hothers Hrepr.
  unfold self_message.
  intros (pairs & Hpairs & [= <-])%bind_Ok.
  intros (pairs' & Hpairs' & [= <-])%bind_Ok.
  change (comprehension (pair_of task) (significant_sorted task)
          = Ok pairs) in Hpairs.
  change (comprehension (pair_of task') (significant_sorted task')
          = Ok pairs') in Hpairs'.
  assert (significant_sorted task' = significant_sorted task) as Hsorted.
  { unfold significant_sorted. by rewrite Hparams. }
  rewrite Hsorted in Hpairs'. clear Hsorted.
  assert (∀ other, other ∈ (significant_sorted task).*1 → other ≠ name →
            param_kwargs task !! other = param_kwargs task' !! other)
    as Hothers'.
  { intros other Ho. apply Hothers. by rewrite <-significant_sorted_names. }
  clear Hothers. rename Hothers' into Hothers.
  rewrite <-significant_sorted_names in Hnodup, Hin.
  apply list_elem_of_fmap in Hin as ([name' par] & -> & Hin).
  cbn [fst] in Hv, Hv', Hothers.
  apply list_elem_of_split in Hin as (l1 & l2 & Hsplit).
  rewrite Hsplit in Hpairs, Hpairs', Hnodup, Hothers.
  rewrite fmap_app, fmap_cons in Hnodup, Hothers.
  apply NoDup_app in Hnodup as (_ & Hl1 & [Hl2 _]%NoDup_cons).
  apply comprehension_Ok, Forall2_app_inv_l in Hpairs
    as (p1 & p2 & Hp1 & Hp2 & ->).
  apply comprehension_Ok, Forall2_app_inv_l in Hpairs'
    as (p1' & p2' & Hp1' & Hp2' & ->).
  apply Forall2_cons_inv_l in Hp2 as (y & q2 & Hy & Hq2 & ->).
  apply Forall2_cons_inv_l in Hp2' as (y' & q2' & Hy' & Hq2' & ->).
  assert (∀ x, x ∈ l1 ∨ x ∈ l2 → pair_of task x = pair_of task' x) as Hsame.
  { intros [other par'] Hx. unfold pair_of, subscript. cbn in *.
    rewrite Hothers; [done| |].
    - rewrite elem_of_app, elem_of_cons, !list_elem_of_fmap.
      destruct Hx; [left|right; right]; by exists (other, par').
    - intros ->. destruct Hx as [Hx|Hx].
      + apply (Hl1 name'); [|by left].
        apply list_elem_of_fmap. by exists (name', par').
      + apply Hl2. apply list_elem_of_fmap. by exists (name', par'). }
  assert (p1' = p1) as ->.
  { symmetry. eapply Forall2_functional; [|exact Hp1|exact Hp1']. auto. }
  assert (q2' = q2) as ->.
  { symmetry. eapply Forall2_functional; [|exact Hq2|exact Hq2']. auto. }
  apply (pair_of_Ok task) in Hy as (w & Hw & ->).
  apply (pair_of_Ok task') in Hy' as (w' & Hw' & ->).
  cbn in Hw, Hw'. rewrite Hv in Hw. rewrite Hv' in Hw'. simplify_eq.
  destruct (join_middle "," (getsource task :: p1) q2) as (a & b & Hjoin).
  rewrite <-Hsrc. cbn [app] in Hjoin.
  change (join "," (getsource task :: p1
                      ++ (name' +:+ "=" +:+ py_repr w) :: q2)
          ≠ join "," (getsource task :: p1
                        ++ (name' +:+ "=" +:+ py_repr w') :: q2)).
  rewrite !Hjoin.
  intros Heq. apply Hrepr.
  apply String.app_inj in Heq. apply string_app_inv_tail in Heq.
  by do 2 apply String.app_inj in Heq.
Qed.

(** With as many requirements on both sides, the lineages have one
    length, and the change shows in the hashed message whether or not the
    requirements changed with the parameter. *)
Lemma significant_change_message task task' limit name v v' m m' :
  getsource task = getsource task' →
  get_params task = get_params task' →
  NoDup (significant_names task) →
  name ∈ significant_names task →
  param_kwargs task !! name = Some v →
  param_kwargs task' !! name = Some v' →
  (∀ other, other ∈ significant_names task → other ≠ name →
            param_kwargs task !! other = param_kwargs task' !! other) →
  py_repr v ≠ py_repr v' →
  length (flatten (requires task)) = length (flatten (requires task')) →
  hashed_message limit task = Ok m →
  hashed_message limit task' = Ok m' →
  m ≠ m'.
Proof.
  intros Hsrc Hparams Hnodup Hin Hv Hv' Hothers Hrepr Hcount.
  unfold hashed_message.
  intros (lin & Hlin & (s & Hs & [= <-])%bind_Ok)%bind_Ok.
  intros (lin' & Hlin' & (s' & Hs' & [= <-])%bind_Ok)%bind_Ok.
  assert (s ≠ s') as Hne by eauto using significant_change_self.
  intros Heq. apply Hne.
  assert (lin = lin') as <-.
  { eapply string_app_same_length; [|exact Heq].
    by rewrite (lineage_message_length _ _ _ Hlin),
               (lineage_message_length _ _ _ Hlin'), Hcount. }
  by apply String.app_inj in Heq.
Qed.
End rendering.

Section significance.
Context {T : Type} `{Luigi T}.
Implicit Types (task : T) (limit : nat).

Lemma changed_message_changed_digest task task' limit m m' :
  hashed_message limit task = Ok m →
  hashed_message limit task' = Ok m' →
  m ≠ m' →
  ¬ sha256_collision m m' →
  get_salted_version (S limit) task ≠ get_salted_version (S limit) task'.
Proof.
  intros Hm Hm' Hne Hcoll. rewrite !get_salted_version_unfold, Hm, Hm'.
  intros Heq%Ok_inj. apply Hcoll. split; assumption.
Qed.

(** Insignificant values do not reach the self message, so that with
    requirements of the same digests the outcome is the same. *)
Lemma get_salted_version_same_lineage task task' limit :
  getsource task = getsource task' →
  get_params task = get_params task' →
  (∀ name, name ∈ significant_names task →
           param_kwargs task !! name = param_kwargs task' !! name) →
  Forall2 (λ req req',
             get_salted_version limit req = get_salted_version limit req')
          (flatten (requires task)) (flatten (requires task')) →
  get_salted_version (S limit) task = get_salted_version (S limit) task'.
Proof.
  intros Hsrc Hparams Hsame Hall. rewrite !get_salted_version_unfold.
  unfold hashed_message, lineage_message, self_message.
  by rewrite (for_each_append_Forall2 _ _ _ _ _ Hall), Hsrc,
             (param_pairs_ext task task' Hparams Hsame).
Qed.


(** C7: the self message is the class source followed by the pairs
    [name=repr(value)] of the significant parameters, by ascending name,
    joined by commas; the pairs of the string ['1'] and of the integer
    [1] differ, so that two tasks which differ in just that have
    different hashed messages, and different digests unless SHA-256
    collides on the two messages. *)
Theorem significant_pairs_sorted_and_typed
    task task' limit name self m m' :
  self_message task = Ok self →
  requires task = requires task' →
  getsource task = getsource task' →
  get_params task = get_params task' →
  NoDup (significant_names task) →
  name ∈ significant_names task →
  param_kwargs task !! name = Some (PyStr "1") →
  param_kwargs task' !! name = Some (PyInt 1) →
  (∀ other, other ∈ significant_names task → other ≠ name →
            param_kwargs task !! other = param_kwargs task' !! other) →
  hashed_message limit task = Ok m →
  hashed_message limit task' = Ok m' →
  (∃ ps : list (string * pyvalue),
     self = join "," (getsource task
                      :: ((λ '(n, v), n +:+ "=" +:+ py_repr v) <$> ps)) ∧
     StronglySorted String.le ps.*1 ∧
     ps.*1 ≡ₚ significant_names task ∧
     Forall (λ '(n, v), param_kwargs task !! n = Some v) ps) ∧
  py_repr (PyStr "1") = "'1'" ∧
  py_repr (PyInt 1) = "1" ∧
  m ≠ m' ∧
  (¬ sha256_collision m m' →
   get_salted_version (S limit) task ≠ get_salted_version (S limit) task').
Proof.
  intros Hself Hreq Hsrc Hparams Hnodup Hin Hv Hv' Hothers Hm Hm'.
  split.
  { unfold self_message in Hself.
    apply bind_Ok in Hself as (pairs & Hpairs & [= <-]).
    destruct (param_pairs_sorted _ _ Hpairs) as (ps & -> & Hnames & Hps).
    exists ps. split; [done|]. rewrite Hnames.
    split; [apply significant_sorted_sorted|].
    split; [apply significant_sorted_names|done]. }
  split; [done|]. split; [done|].
  assert (m ≠ m') as Hne.
  { eapply significant_change; eauto; discriminate. }
  split; [done|]. by apply changed_message_changed_digest.
Qed.
End significance.

(** Case analysis on the membership of a name in an explicit list. *)
Ltac each_name Hin :=
  repeat (apply elem_of_cons in Hin as [->|Hin]);
  [..|by apply elem_of_nil in Hin].



Lemma significant_pairs_sorted_and_typed_witness :
  py_repr (PyStr "1") = "'1'" ∧
  py_repr (PyInt 1) = "1" ∧
  get_salted_version 1 (Leaf (PyStr "1")) ≠ get_salted_version 1 (Leaf (PyInt 1)).
Proof.
  edestruct (significant_pairs_sorted_and_typed
               (Leaf (PyStr "1")) (Leaf (PyInt 1)) 0 "date")
    as (_ & Hstr & Hint & _ & Hdigest);
    [vm_compute; reflexivity
    |reflexivity|reflexivity|reflexivity
    |
    |
    |vm_compute; reflexivity
    |vm_compute; reflexivity
    |
    |vm_compute; reflexivity
    |vm_compute; reflexivity
    |].
  - apply (bool_decide_unpack _). vm_compute. exact I.
  - apply (bool_decide_unpack _). vm_compute. exact I.
  - intros other Hin Hne. change (other ∈ ["date"]) in Hin.
    each_name Hin. done.
  - split; [exact Hstr|]. split; [exact Hint|].
    apply Hdigest. intros [_ Heq]. revert Heq. vm_compute. discriminate.
Defined.

(** ** Termination and the shape of the digest *)

Lemma comprehension_total {A B} (f : A → outcome B) (l : list A) :
  (∀ x, x ∈ l → ∃ y, f x = Ok y) → ∃ ys, comprehension f l = Ok ys.
Proof.
  induction l as [|x l IH]; intros Hf; [by exists []|].
  destruct (Hf x) as [y Hy]; [by constructor|].
  destruct IH as [ys Hys]; [intros z Hz; apply Hf; by constructor|].
  exists (y :: ys). cbn. rewrite Hy. cbn. by rewrite Hys.
Qed.

Section termination.
Context {T : Type} `{Luigi T}.
Implicit Types (task req : T) (limit depth : nat).

(** The lookups of line 58 find their keys: the comprehension returns. *)
Lemma param_pairs_total task : ∃ pairs, param_pairs task = Ok pairs.
Proof.
  rewrite param_pairs_eq. apply comprehension_total.
  intros [name par] Hin. destruct (param_kwargs_bound task name par) as [v Hv].
  { apply list_elem_of_filter in Hin as [_ Hin].
    unfold sorted in Hin. by rewrite merge_sort_Permutation in Hin. }
  exists (name +:+ "=" +:+ py_repr v). apply pair_of_Ok. eauto.
Qed.

Lemma chains_within_mono n m task :
  chains_within n task → (n ≤ m)%nat → chains_within m task.
Proof.
  intros Hn. revert m. induction Hn as [n task _ IH].
  intros [|m] Hle; [lia|]. constructor. intros req Hreq.
  apply IH; [done|lia].
Qed.

Lemma chains_within_finite_acyclic n task :
  chains_within n task → finite_acyclic task.
Proof. induction 1 as [n task _ IH]. by constructor. Qed.

(** Finitely many bounded tasks have a common bound. *)
Lemma common_chain_bound (reqs : list T) :
  (∀ req, req ∈ reqs → ∃ n, chains_within n req) →
  ∃ n, ∀ req, req ∈ reqs → chains_within n req.
Proof.
  induction reqs as [|req reqs IH]; intros Hall.
  { exists 0%nat. intros req Hin. by apply elem_of_nil in Hin. }
  destruct (Hall req) as [n Hn]; [by left|].
  destruct IH as [n' Hn']; [intros r Hr; apply Hall; by right|].
  exists (n `max` n')%nat. intros r [->|Hr]%elem_of_cons.
  - eapply chains_within_mono; [done|lia].
  - eapply chains_within_mono; [by apply Hn'|lia].
Qed.

Lemma finite_acyclic_chains_within task :
  finite_acyclic task → ∃ n, chains_within n task.
Proof.
  induction 1 as [task _ IH].
  destruct (common_chain_bound (flatten (requires task)) IH) as [n Hn].
  exists (S n). by constructor.
Qed.

Lemma outcomes_collect (f : T → outcome string) (reqs : list T) :
  (∀ req, req ∈ reqs → ∃ d, f req = Ok d) →
  ∃ ds, Forall2 (λ req d, f req = Ok d) reqs ds.
Proof.
  induction reqs as [|req reqs IH]; intros Hall; [by exists []|].
  destruct (Hall req) as [d Hd]; [by left|].
  destruct IH as [ds Hds]; [intros r Hr; apply Hall; by right|].
  exists (d :: ds). by constructor.
Qed.

(** With chains no longer than the recursion depth, the call returns. *)
Lemma chains_within_digest limit task :
  chains_within limit task → ∃ d, get_salted_version limit task = Ok d.
Proof.
  induction 1 as [n task _ IH].
  destruct (outcomes_collect (get_salted_version n) _ IH) as [ds Hds].
  destruct (param_pairs_total task) as [pairs Hpairs].
  exists (sha256_hex (join "" ds +:+ join "," (getsource task :: pairs))).
  rewrite get_salted_version_unfold. unfold hashed_message, self_message.
  by rewrite (lineage_message_Ok _ _ ds Hds), Hpairs.
Qed.


(** Without the acyclicity no depth is enough. *)
Lemma cycle_never_returns task limit :
  flatten (requires task) = [task] →
  get_salted_version limit task = Raise RecursionError.
Proof.
  intros Hreq. induction limit as [|limit IH]; [done|].
  cbn. rewrite Hreq. cbn. by rewrite IH.
Qed.
End termination.

Lemma Salted_chains_within workflow length label :
  chains_within 3 (Salted workflow length label).
Proof.
  constructor. intros req Hin.
  change (req ∈ [Parent (PyDate 2018 3 7)]) in Hin. each_name Hin.
  constructor. intros req Hin.
  change (req ∈ [Leaf (PyDate 2018 3 7)]) in Hin. each_name Hin.
  constructor. intros req Hin. by apply elem_of_nil in Hin.
Qed.


Lemma chain_finite_acyclic n : finite_acyclic (chain n).
Proof.
  induction n as [|n IH]; constructor; intros req Hin.
  - by apply elem_of_nil in Hin.
  - change (req ∈ [chain n]) in Hin. by apply list_elem_of_singleton in Hin as ->.
Qed.


Lemma Loop_never_returns limit :
  get_salted_version limit Loop = Raise RecursionError.
Proof. by apply cycle_never_returns. Qed.

Lemma Loop_not_finite_acyclic : ¬ finite_acyclic Loop.
Proof.
  intros Hfin. remember Loop as task eqn:Heq.
  induction Hfin as [task _ IH]. subst. apply (IH Loop); [|done].
  by apply list_elem_of_singleton.
Qed.

(** ** File patterns *)

Lemma split_on_plain (sep : ascii) (s : string) :
  all_chars (λ c, bool_decide (c ≠ sep)) s = true → split_on sep s = [s].
Proof.
  induction s as [|c s IH]; [done|]. cbn.
  intros [Hc Hs]%andb_true_iff. apply bool_decide_eq_true in Hc.
  rewrite decide_False, IH by done. done.
Qed.

Lemma substring_all (s : string) (n : nat) :
  (String.length s ≤ n)%nat → substring 0 n s = s.
Proof.
  revert n. induction s as [|c s IH]; intros [|n] Hle; cbn in *;
    [done|done|lia|]. rewrite IH; [done|lia].
Qed.

Lemma substring_length (s : string) (n : nat) :
  String.length (substring 0 n s) = (n `min` String.length s)%nat.
Proof.
  revert n. induction s as [|c s IH]; intros [|n]; cbn; [done..|].
  by rewrite IH.
Qed.

Lemma all_chars_substring (P : ascii → bool) (s : string) (n : nat) :
  all_chars P s = true → all_chars P (substring 0 n s) = true.
Proof.
  revert n. induction s as [|c s IH]; intros [|n]; cbn; [done..|].
  intros [-> Hs]%andb_true_iff. cbn. by apply IH.
Qed.

(** A bound that is not negative takes the first characters. *)
Lemma slice_to_nonneg (s : string) (n : Z) :
  0 ≤ n → slice_to s n = substring 0 (Z.to_nat n) s.
Proof.
  intros Hn. unfold slice_to. rewrite decide_False by lia.
  destruct (Z.min_spec n (Z.of_nat (String.length s))) as [[Hlt ->]|[Hle ->]];
    [done|].
  rewrite Nat2Z.id, !substring_all; [done|lia..].
Qed.

Lemma plain_name_spec (s : string) :
  plain_name s = true →
  all_chars is_ascii s = true ∧
  all_chars is_field_char s = true ∧
  all_chars (λ c, bool_decide (c ≠ "."%char)) s = true ∧
  s ≠ "".
Proof.
  intros [Hchars Hne]%andb_true_iff.
  apply negb_true_iff, bool_decide_eq_false in Hne.
  repeat split; [..|done]; revert Hchars; apply all_chars_impl;
    unfold is_name_char; intros c [[??]%andb_true_iff ?]%andb_true_iff; done.
Qed.

Section patterns.
Context {T : Type} `{Luigi T}.
Implicit Types (self : T) (salt pattern pre post rest : string).

(** A prefix of a pattern that formats on its own formats to the same
    text in front of whatever follows it. *)
Lemma format_from_app salt self (n : nat) :
  ∀ pre field out rest,
    (String.length pre ≤ n)%nat →
    format_from salt self field pre = Ok out →
    format_from salt self field (pre +:+ rest)
    = (tail ← format_from salt self None rest; Ok (out +:+ tail)).
Proof.
  induction n as [|n IH]; intros pre field out rest Hlen Hpre.
  { destruct pre; [|cbn in Hlen; lia].
    destruct field; [done|]. injection Hpre as <-.
    rewrite string_app_nil. by destruct (format_from salt self None rest). }
  destruct pre as [|c pre].
  { destruct field; [done|]. injection Hpre as <-.
    rewrite string_app_nil. by destruct (format_from salt self None rest). }
  rewrite string_app_cons. cbn [String.length] in Hlen.
  cbn [format_from] in Hpre |- *. destruct field as [name|].
  - destruct (decide (c = "}"%char)) as [->|Hclose].
    { apply bind_Ok in Hpre as (text & Htext & Hpre).
      apply bind_Ok in Hpre as (tail & Htail & [= <-]).
      rewrite Htext. cbn. rewrite (IH pre None tail rest); [|lia|done].
      destruct (format_from salt self None rest); cbn; [|done..].
      by rewrite string_app_assoc. }
    destruct (decide (c = "{"%char)); [done|].
    destruct (decide _); [done|]. apply IH; [lia|done].
  - destruct (decide (c = "{"%char)) as [->|Hopen].
    { destruct pre as [|c' pre']; [done|]. rewrite string_app_cons.
      cbn [String.length] in Hlen.
      destruct (decide (c' = "{"%char)) as [->|Hfield].
      - apply bind_Ok in Hpre as (tail & Htail & [= <-]).
        rewrite (IH pre' None tail rest); [|lia|done].
        by destruct (format_from salt self None rest).
      - rewrite <-string_app_cons. apply IH; [cbn; lia|done]. }
    destruct (decide (c = "}"%char)) as [->|Hclose].
    { destruct pre as [|c' pre']; [done|]. rewrite string_app_cons.
      cbn [String.length] in Hlen.
      destruct (decide (c' = "}"%char)) as [->|]; [|done].
      apply bind_Ok in Hpre as (tail & Htail & [= <-]).
      rewrite (IH pre' None tail rest); [|lia|done].
      by destruct (format_from salt self None rest). }
    apply bind_Ok in Hpre as (tail & Htail & [= <-]).
    rewrite (IH pre None tail rest); [|lia|done].
    by destruct (format_from salt self None rest).
Qed.

Lemma format_app salt self pre out rest :
  format pre salt self = Ok out →
  format (pre +:+ rest) salt self
  = (tail ← format rest salt self; Ok (out +:+ tail)).
Proof. unfold format. by apply (format_from_app _ _ (String.length pre)). Qed.

(** Text without braces formats to itself. *)
Lemma format_literal salt self text :
  literal_text text = true → format text salt self = Ok text.
Proof.
  unfold format, literal_text. induction text as [|c text IH]; [done|].
  cbn. intros [Hc Hs]%andb_true_iff.
  apply negb_true_iff, bool_decide_eq_false in Hc.
  rewrite !decide_False by tauto. by rewrite IH.
Qed.

(** Inside a field, characters are collected up to the closing brace,
    where the field is resolved. *)
Lemma format_from_field salt self name body rest :
  all_chars is_field_char body = true →
  format_from salt self (Some name) (body +:+ String "}" rest)
  = (text ← format_field salt self (name +:+ body);
     tail ← format_from salt self None rest;
     Ok (text +:+ tail)).
Proof.
  revert name. induction body as [|c body IH]; intros name Hbody.
  { rewrite string_app_nil, string_app_empty_r. cbn.
    by rewrite decide_True. }
  cbn in Hbody. apply andb_true_iff in Hbody as [Hc Hbody].
  apply bool_decide_eq_true in Hc.
  rewrite string_app_cons. cbn [format_from].
  rewrite !decide_False by tauto.
  rewrite IH by done. by rewrite string_app_assoc.
Qed.

(** A replacement field, wherever it stands after a prefix that
    formats. *)
Lemma format_field_at salt self pre out body rest :
  format pre salt self = Ok out →
  all_chars is_field_char body = true →
  format (pre +:+ "{" +:+ body +:+ "}" +:+ rest) salt self
  = (text ← format_field salt self body;
     tail ← format rest salt self;
     Ok (out +:+ text +:+ tail)).
Proof.
  intros Hpre Hbody. rewrite (format_app _ _ _ _ _ Hpre). unfold format.
  assert (format_from salt self None ("{" +:+ body +:+ "}" +:+ rest)
          = format_from salt self (Some "") (body +:+ "}" +:+ rest)) as ->.
  { rewrite string_app_cons, string_app_nil. cbn [format_from].
    rewrite decide_True by done.
    destruct body as [|c body].
    - rewrite string_app_nil. by rewrite string_app_cons, decide_False.
    - rewrite string_app_cons. rewrite decide_False; [done|].
      cbn in Hbody. apply andb_true_iff in Hbody as [Hc _].
      apply bool_decide_eq_true in Hc. tauto. }
  change ("}" +:+ rest) with (String "}" rest).
  rewrite format_from_field, string_app_nil by done.
  destruct (format_field salt self body); cbn; [|done..].
  by destruct (format_from salt self None rest).
Qed.

Lemma format_field_salt salt self : format_field salt self "salt" = Ok salt.
Proof. reflexivity. Qed.

Lemma format_field_unknown salt self name :
  plain_name name = true →
  all_chars is_digit name = false →
  name ≠ "salt" → name ≠ "self" →
  format_field salt self name = Raise (KeyError name).
Proof.
  intros (Hascii & _ & Hdot & Hne)%plain_name_spec Hdigits Hsalt Hself.
  unfold format_field. rewrite split_on_plain by done.
  unfold get_value. rewrite Hascii. cbn. rewrite Hdigits.
  by rewrite !decide_False.
Qed.

Lemma format_field_self_attribute salt self attr :
  plain_name attr = true →
  format_field salt self ("self." +:+ attr)
  = match getattr self attr with
    | Some v => Ok (py_str v)
    | None =>
        if hasattr self attr then Unmodelled else Raise (AttributeError attr)
    end.
Proof.
  intros (_ & _ & Hdot & Hne)%plain_name_spec.
  unfold format_field.
  change (split_on "." ("self." +:+ attr))
    with ("self" :: split_on "." attr).
  rewrite split_on_plain by done.
  assert (get_value salt self "self" = Ok (FTask self)) as ->
    by reflexivity.
  cbn. unfold get_attribute. destruct (decide (attr = "")); [done|].
  destruct (getattr self attr); [done|]. by destruct (hasattr self attr).
Qed.
End patterns.

(** ** Salted targets *)

Section salted_targets.
Context {T : Type} `{Luigi T} {Target Kwargs : Type}.
Implicit Types (self : T) (limit : nat) (kwargs : Kwargs)
               (target_type : string → Kwargs → Target).

Lemma get_salted_version_hex self limit d :
  get_salted_version limit self = Ok d → ∃ msg, d = sha256_hex msg.
Proof.
  destruct limit as [|limit]; [done|]. rewrite get_salted_version_unfold.
  intros (msg & _ & [= <-])%bind_Ok. by exists msg.
Qed.

Lemma salt_target_unfold self limit d target_type pattern kwargs :
  get_salted_version limit self = Ok d →
  salt_target limit self target_type pattern kwargs
  = (file_path ← format pattern (slice_to d (salt_length self)) self;
     Ok (target_type file_path kwargs)).
Proof. intros Hd. unfold salt_target. by rewrite Hd. Qed.

(** C5: with a salt length that is not negative, [salt_target] puts the
    first [salt_length] characters of the digest, which are hexadecimal,
    in the place of [{salt}], between what the text before and the text
    after the placeholder format to; with the pattern [out-{salt}.csv]
    and the lengths 6 and 8 the path is [out-], the first 6 or 8
    characters of the digest, and [.csv]. *)
Theorem salt_target_substitutes_salt
    self limit d target_type kwargs pre pre' post post' :
  get_salted_version limit self = Ok d →
  0 ≤ salt_length self →
  let salt := substring 0 (Z.to_nat (salt_length self)) d in
  format pre salt self = Ok pre' →
  format post salt self = Ok post' →
  salt_target limit self target_type (pre +:+ "{salt}" +:+ post) kwargs
  = Ok (target_type (pre' +:+ salt +:+ post') kwargs) ∧
  String.length salt = (Z.to_nat (salt_length self) `min` 64)%nat ∧
  all_chars is_lower_hex salt = true ∧
  (salt_length self = 6 →
   salt_target limit self target_type "out-{salt}.csv" kwargs
   = Ok (target_type ("out-" +:+ substring 0 6 d +:+ ".csv") kwargs)) ∧
  (salt_length self = 8 →
   salt_target limit self target_type "out-{salt}.csv" kwargs
   = Ok (target_type ("out-" +:+ substring 0 8 d +:+ ".csv") kwargs)).
Proof.
  intros Hd Hlen salt Hpre Hpost.
  assert (∀ a a' b b',
            format a salt self = Ok a' → format b salt self = Ok b' →
            salt_target limit self target_type (a +:+ "{salt}" +:+ b) kwargs
            = Ok (target_type (a' +:+ salt +:+ b') kwargs)) as Hsubst.
  { intros a a' b b' Ha Hb.
    rewrite (salt_target_unfold _ _ _ _ _ _ Hd), slice_to_nonneg by done.
    fold salt.
    change (a +:+ "{salt}" +:+ b) with (a +:+ "{" +:+ "salt" +:+ "}" +:+ b).
    rewrite (format_field_at _ _ _ _ _ _ Ha) by done.
    rewrite format_field_salt. cbn. by rewrite Hb. }
  destruct (get_salted_version_hex _ _ _ Hd) as [msg ->]. subst salt.
  split; [by apply Hsubst|].
  split; [by rewrite substring_length, sha256_hex_length|].
  split; [apply all_chars_substring, sha256_hex_lower|].
  split; intros Hn.
  - change "out-{salt}.csv" with ("out-" +:+ "{salt}" +:+ ".csv").
    rewrite (Hsubst "out-" "out-" ".csv" ".csv")
      by (by apply format_literal).
    by rewrite Hn.
  - change "out-{salt}.csv" with ("out-" +:+ "{salt}" +:+ ".csv").
    rewrite (Hsubst "out-" "out-" ".csv" ".csv")
      by (by apply format_literal).
    by rewrite Hn.
Qed.

End salted_targets.

Lemma salt_target_substitutes_salt_witness :
  salt_target 3 (Salted true 8 (PyStr "x")) Build_LocalTarget
              ("data/{self.label}-" +:+ "{salt}" +:+ ".pkl") None
  = Ok {| path := "data/x-89326510.pkl"; format_kw := None |} ∧
  salt_target 3 (Salted true 8 (PyStr "x")) Build_LocalTarget
              "out-{salt}.csv" None
  = Ok {| path := "out-89326510.csv"; format_kw := None |}.
Proof.
  destruct (salt_target_substitutes_salt
              (Salted true 8 (PyStr "x")) 3
              "893265102ae74bb0cb111c23b5079c612d49c03e786e01b8e1c8cb1145c60a22"
              Build_LocalTarget None
              "data/{self.label}-" "data/x-" ".pkl" ".pkl")
    as (Hpath & _ & _ & _ & Height);
    [vm_compute; reflexivity
    |vm_compute; discriminate
    |vm_compute; reflexivity
    |vm_compute; reflexivity
    |].
  split; [exact Hpath|exact (Height eq_refl)].
Defined.



(** C6, on the code: a task whose [salt_workflow] is off still gets the
    first six characters of its digest in the path of its target;
    [salt_target] never reads the flag. *)
Lemma salt_workflow_off_still_salted :
  salt_workflow (Salted false 6 PyNone) = false ∧
  get_salted_version 3 (Salted false 6 PyNone)
  = Ok "46629d968b7605253a7fe7b16939e22e4d98aba58fbf691f2b15d10a01a9b8ec" ∧
  salt_target 3 (Salted false 6 PyNone) Build_LocalTarget
              "data/model-{salt}.pkl" None
  = Ok {| path := "data/model-46629d.pkl"; format_kw := None |}.
Proof.
  split; [reflexivity|]. split; vm_compute; reflexivity.
Qed.

(** ** Checks against the libraries *)

(** The test vectors of FIPS 180-4 for the empty message, for one block
    and for two blocks. *)
Example sha256_hex_empty :
  sha256_hex ""
  = "e3b0c44298fc1c149afbf4c8996fb92427ae41e4649b934ca495991b7852b855".
Proof. vm_compute. reflexivity. Qed.

Example sha256_hex_abc :
  sha256_hex "abc"
  = "ba7816bf8f01cfea414140de5dae2223b00361a396177a9cb410ff61f20015ad".
Proof. vm_compute. reflexivity. Qed.

Example sha256_hex_two_blocks :
  sha256_hex "abcdbcdecdefdefgefghfghighijhijkijkljklmklmnlmnomnopnopq"
  = "248d6a61d20638b8e5c026930c3e6039a33ce45964ff2167f6ecedd419db06c1".
Proof. vm_compute. reflexivity. Qed.

Example round_constants :
  (SHA256.K !! 0%nat, SHA256.K !! 63%nat, SHA256.ha SHA256.H0)
  = (Some 0x428a2f98, Some 0xc67178f2, 0x6a09e667).
Proof. reflexivity. Qed.

(** [repr] and [str] on the values of the demo. *)
Example py_repr_values :
  py_repr <$> [PyNone; PyBool true; PyInt (-5); PyStr "a'b"; PyStr "1";
               PyDate 2018 3 7]
  = ["None"; "True"; "-5"; String dquote ("a'b" +:+ String dquote "");
     "'1'"; "datetime.date(2018, 3, 7)"].
Proof. vm_compute. reflexivity. Qed.

(** [repr] and [encode] on characters from 127 to 255: e acute is
    copied and takes two bytes; the delete character, a control character
    above 127, the no-break space and the soft hyphen are written by their
    hexadecimal digits. *)
Example py_repr_latin1 :
  py_repr <$> [PyStr (String "233" ""); PyStr (String "127" "");
               PyStr (String "133" ""); PyStr (String "160" "");
               PyStr (String "173" "")]
  = [String squote (String "233" (String squote ""));
     "'\x7f'"; "'\x85'"; "'\xa0'"; "'\xad'"].
Proof. vm_compute. reflexivity. Qed.

Example sha256_hex_e_acute :
  encode (String "233" "") = [195; 169] ∧
  sha256_hex (String "233" "")
  = "4a99557e4033c3539de2eb65472017cad5f9557f7a0625a09f1c3f6e2ba69c4c".
Proof. split; vm_compute; reflexivity. Qed.

Example py_str_date : py_str (PyDate 2018 3 7) = "2018-03-07".
Proof. vm_compute. reflexivity. Qed.

(** The message of a real [datetime.date] parameter. *)
Example leaf_message_of_date :
  hashed_message 0 (Leaf (PyDate 2018 3 7))
  = Ok "L,date=datetime.date(2018, 3, 7)".
Proof. vm_compute. reflexivity. Qed.

(** The pairs come by ascending name, whatever the order of declaration,
    and the insignificant [label] is left out. *)
Example salted_message :
  hashed_message 2 (Salted false 6 (PyStr "x"))
  = Ok ("221078c46188815d1779bc16be6964ee1d071bc057c008a54c4c3eb273a0546d"
        +:+ "S,salt_length=6,salt_parameters=False,salt_workflow=False").
Proof. vm_compute. reflexivity. Qed.

(** Slices with bounds beyond the text and below zero. *)
Example slice_to_bounds :
  (slice_to "abcdef" 3, slice_to "abcdef" 10, slice_to "abcdef" (-2),
   slice_to "abcdef" (-10), slice_to "abcdef" 0)
  = ("abc", "abcdef", "abcd", "", "").
Proof. vm_compute. reflexivity. Qed.

(** [str.format] on patterns of each kind. *)
Example format_patterns :
  (λ pattern, format pattern "abc" (Leaf (PyInt 5)))
    <$> ["a{{b}}c{salt}"; "{self.date}-{salt}"; "{foo}}"; "{self.nope}";
         "{}"; "{0}"; "{.a}"; "{1a}"; "{salt"; "}"; "{"; "{a{b}";
         "{self.}"; "{self..x}"; "{salt}{"; "{salt!r}"; "{salt:>8}";
         "{salt[0]}"; "{salt.upper}"]
  = [Ok "a{b}cabc"; Ok "5-abc"; Raise (KeyError "foo");
     Raise (AttributeError "nope"); Raise IndexError; Raise IndexError;
     Raise IndexError; Raise (KeyError "1a"); Raise ValueError;
     Raise ValueError; Raise ValueError; Raise ValueError; Raise ValueError;
     Raise ValueError; Raise ValueError; Unmodelled; Unmodelled; Unmodelled;
     Unmodelled].
Proof. vm_compute. reflexivity. Qed.

(** The task itself and the attributes that it has from [luigi.Task]
    are not rendered. *)
Example format_unmodelled_attributes :
  (λ pattern, format pattern "abc" (Leaf (PyInt 5)))
    <$> ["{self}"; "{self.task_family}"; "{self.__version__}";
         "{self.output}"]
  = [Unmodelled; Unmodelled; Unmodelled; Unmodelled].
Proof. vm_compute. reflexivity. Qed.

(** A salt length below zero cuts from the end of the digest. *)
Example negative_salt_length :
  salt_target 3 (Salted true (-60) PyNone) Build_LocalTarget
              "out-{salt}.csv" None
  = Ok {| path := "out-03da.csv"; format_kw := None |}.
Proof. vm_compute. reflexivity. Qed.

(** * Further properties of the module *)

(** ** The outcomes of [get_salted_version] *)

Lemma for_each_append_outcomes {A} (f : A → outcome string) acc l :
  (∀ x, x ∈ l → (∃ d, f x = Ok d) ∨ f x = Raise RecursionError) →
  (∃ r, for_each (λ msg x, d ← f x; Ok (msg +:+ d)) acc l = Ok r) ∨
  for_each (λ msg x, d ← f x; Ok (msg +:+ d)) acc l = Raise RecursionError.
Proof.
  revert acc. induction l as [|x l IH]; intros acc Hf; cbn; [eauto|].
  destruct (Hf x) as [[d ->] | ->]; [by constructor| |by right].
  cbn. apply IH. intros y Hy. apply Hf. by constructor.
Qed.

Section outcomes.
Context {T : Type} `{Luigi T}.
Implicit Types (task req : T) (limit : nat).

(** On a task of the interface, whose class source is there and whose
    parameters have their values, the recursion depth is all that a call
    can fail on. *)
Lemma get_salted_version_outcomes task limit :
  (∃ d, get_salted_version limit task = Ok d) ∨
  get_salted_version limit task = Raise RecursionError.
Proof.
  revert task. induction limit as [|limit IH]; intros task; [by right|].
  rewrite get_salted_version_unfold. unfold hashed_message, self_message.
  destruct (for_each_append_outcomes (get_salted_version limit) ""
              (flatten (requires task))) as [[lin Hlin] | Hlin]; [by auto|..].
  - unfold lineage_message. rewrite Hlin. cbn.
    destruct (param_pairs_total task) as [pairs ->]. cbn. eauto.
  - unfold lineage_message. rewrite Hlin. by right.
Qed.

Lemma get_salted_version_finite_acyclic task limit d :
  get_salted_version limit task = Ok d → finite_acyclic task.
Proof.
  revert task d. induction limit as [|limit IH]; intros task d; [done|].
  rewrite get_salted_version_unfold.
  intros (msg & (lin & Hlin & _)%bind_Ok & _)%bind_Ok.
  apply for_each_append_inv in Hlin as (ds & Hall & _).
  constructor. intros req [i Hi]%list_elem_of_lookup.
  destruct (Forall2_lookup_l _ _ _ _ _ Hall Hi) as (dr & _ & Hdr).
  by eapply IH.
Qed.

Lemma get_salted_version_chains_within task limit d :
  get_salted_version limit task = Ok d → chains_within limit task.
Proof.
  revert task d. induction limit as [|limit IH]; intros task d; [done|].
  rewrite get_salted_version_unfold.
  intros (msg & (lin & Hlin & _)%bind_Ok & _)%bind_Ok.
  apply for_each_append_inv in Hlin as (ds & Hall & _).
  constructor. intros req [i Hi]%list_elem_of_lookup.
  destruct (Forall2_lookup_l _ _ _ _ _ Hall Hi) as (dr & _ & Hdr).
  by eapply IH.
Qed.

Lemma get_salted_version_reachable task limit d t :
  get_salted_version limit task = Ok d →
  reachable task t →
  ∃ d', get_salted_version limit t = Ok d'.
Proof.
  intros Hd Hreach. revert limit d Hd.
  induction Hreach as [task|task req t Hreq Hreach IH]; intros limit d Hd;
    [eauto|].
  destruct limit as [|limit]; [done|].
  rewrite get_salted_version_unfold in Hd.
  apply bind_Ok in Hd as (msg & (lin & Hlin & _)%bind_Ok & _).
  apply for_each_append_inv in Hlin as (ds & Hall & _).
  apply list_elem_of_lookup in Hreq as [i Hi].
  destruct (Forall2_lookup_l _ _ _ _ _ Hall Hi) as (dr & _ & Hdr).
  destruct (IH _ _ Hdr) as [d' Hd']. exists d'.
  eapply get_salted_version_mono; [|done]. lia.
Qed.

(** Below a finite acyclic graph no task requires itself, directly or
    through others. *)
Lemma finite_acyclic_no_cycle task t req :
  finite_acyclic task →
  reachable task t →
  req ∈ flatten (requires t) →
  ¬ reachable req t.
Proof.
  intros Hfin. revert t req.
  induction Hfin as [task _ IH]. intros t req Hreach.
  inversion Hreach as [|? r ? Hr Hrt]; subst; [|by eapply IH].
  intros Hreq Hcycle. by eapply (IH req Hreq _ req Hcycle Hreq).
Qed.

(** X1: [get_salted_version] returns a digest only on a task below which
    the requirements graph is finite and acyclic, with no chain of
    requirements longer than the recursion depth of the call.  Every task
    of that graph then has a digest as well, and the task is not among
    the tasks that its own requirements reach. *)
Theorem digest_only_within_depth task limit d :
  get_salted_version limit task = Ok d →
  chains_within limit task ∧
  finite_acyclic task ∧
  (∀ t, reachable task t → ∃ d', get_salted_version limit t = Ok d') ∧
  (∀ req, req ∈ flatten (requires task) → ¬ reachable req task).
Proof.
  intros Hd.
  pose proof (get_salted_version_finite_acyclic _ _ _ Hd) as Hfin.
  split; [by eapply get_salted_version_chains_within|].
  split; [done|].
  split; [intros t; by apply (get_salted_version_reachable _ _ d)|].
  intros req. apply finite_acyclic_no_cycle with task; [done|constructor].
Qed.

(** Two tasks whose requirements agree up to a position at which the
    digests differ have different hashed messages. *)
Lemma lineage_first_difference task task' limit before a b rest rest'
    da db m m' :
  flatten (requires task) = before ++ a :: rest →
  flatten (requires task') = before ++ b :: rest' →
  get_salted_version limit a = Ok da →
  get_salted_version limit b = Ok db →
  da ≠ db →
  hashed_message limit task = Ok m →
  hashed_message limit task' = Ok m' →
  m ≠ m'.
Proof.
  intros Hreq Hreq' Ha Hb Hne.
  unfold hashed_message.
  intros (lin & Hlin & (self & _ & [= <-])%bind_Ok)%bind_Ok.
  intros (lin' & Hlin' & (self' & _ & [= <-])%bind_Ok)%bind_Ok.
  apply lineage_message_digests in Hlin as (ds & Hall & ->).
  apply lineage_message_digests in Hlin' as (ds' & Hall' & ->).
  rewrite Hreq in Hall. rewrite Hreq' in Hall'.
  apply Forall2_app_inv_l in Hall as (d1 & d2 & H1 & H2 & ->).
  apply Forall2_app_inv_l in Hall' as (d1' & d2' & H1' & H2' & ->).
  apply Forall2_cons_inv_l in H2 as (ea & e2 & Hea & _ & ->).
  apply Forall2_cons_inv_l in H2' as (eb & e2' & Heb & _ & ->).
  assert (d1' = d1) as ->.
  { symmetry. eapply Forall2_functional; [|exact H1|exact H1']. done. }
  rewrite Ha in Hea. rewrite Hb in Heb. simplify_eq.
  rewrite !join_empty_app, !join_empty_cons, !string_app_assoc.
  intros Heq%String.app_inj. apply Hne.
  eapply string_app_same_length; [|exact Heq].
  by rewrite (get_salted_version_length _ _ _ Ha),
             (get_salted_version_length _ _ _ Hb).
Qed.

(** X2: the order of the requirements is part of the digest: when two
    neighbouring requirements with different digests change places, the
    hashed message changes, and the digest with it unless SHA-256 collides
    on the two messages. *)
Theorem requirement_order_matters task task' limit before a b rest
    da db m m' :
  flatten (requires task) = before ++ a :: b :: rest →
  flatten (requires task') = before ++ b :: a :: rest →
  get_salted_version limit a = Ok da →
  get_salted_version limit b = Ok db →
  da ≠ db →
  hashed_message limit task = Ok m →
  hashed_message limit task' = Ok m' →
  m ≠ m' ∧
  (¬ sha256_collision m m' →
   get_salted_version (S limit) task ≠ get_salted_version (S limit) task').
Proof.
  intros Hreq Hreq' Ha Hb Hne Hm Hm'.
  assert (m ≠ m') as Hmne by eauto using lineage_first_difference.
  split; [done|]. by apply changed_message_changed_digest.
Qed.

(** X3: the lineage comes first in the message and its digests have one
    width, so that two tasks whose requirements agree up to a position at
    which the digests differ have different hashed messages, whatever
    requirements follow and whatever the source and the parameters of the
    two tasks are. *)
Theorem requirement_digest_in_message task task' limit before a b rest rest'
    da db m m' :
  flatten (requires task) = before ++ a :: rest →
  flatten (requires task') = before ++ b :: rest' →
  get_salted_version limit a = Ok da →
  get_salted_version limit b = Ok db →
  da ≠ db →
  hashed_message limit task = Ok m →
  hashed_message limit task' = Ok m' →
  m ≠ m' ∧
  (¬ sha256_collision m m' →
   get_salted_version (S limit) task ≠ get_salted_version (S limit) task').
Proof.
  intros Hreq Hreq' Ha Hb Hne Hm Hm'.
  assert (m ≠ m') as Hmne by eauto using lineage_first_difference.
  split; [done|]. by apply changed_message_changed_digest.
Qed.

(** X4: the class source is part of the message: two tasks with the same
    requirements and the same significant parameters and values, but
    different class sources, have different hashed messages. *)
Theorem source_change_changes_message task task' limit m m' :
  requires task = requires task' →
  get_params task = get_params task' →
  (∀ name, name ∈ significant_names task →
           param_kwargs task !! name = param_kwargs task' !! name) →
  getsource task ≠ getsource task' →
  hashed_message limit task = Ok m →
  hashed_message limit task' = Ok m' →
  m ≠ m' ∧
  (¬ sha256_collision m m' →
   get_salted_version (S limit) task ≠ get_salted_version (S limit) task').
Proof.
  intros Hreq Hparams Hsame Hsrc Hm Hm'.
  assert (m ≠ m') as Hmne.
  { revert Hm Hm'. unfold hashed_message, self_message.
    intros (lin & Hlin & (self & (pairs & Hpairs & [= <-])%bind_Ok
                            & [= <-])%bind_Ok)%bind_Ok.
    intros (lin' & Hlin' & (self' & (pairs' & Hpairs' & [= <-])%bind_Ok
                              & [= <-])%bind_Ok)%bind_Ok.
    assert (lin' = lin) as ->.
    { unfold lineage_message in *. rewrite Hreq in Hlin. congruence. }
    assert (pairs' = pairs) as ->.
    { rewrite (param_pairs_ext task task' Hparams Hsame) in Hpairs.
      congruence. }
    intros Heq%String.app_inj. apply Hsrc.
    destruct pairs as [|pair pairs]; [done|].
    change (getsource task +:+ "," +:+ join "," (pair :: pairs)
            = getsource task' +:+ "," +:+ join "," (pair :: pairs)) in Heq.
    by apply string_app_inv_tail in Heq. }
  split; [done|]. by apply changed_message_changed_digest.
Qed.

(** X5: the keys of a dict of requirements do not reach the digest: two
    tasks that differ only in these keys get the same outcome of every
    call. *)
Theorem requirement_dict_keys_ignored task task' limit items items' :
  requires task = SDict items →
  requires task' = SDict items' →
  items.*2 = items'.*2 →
  getsource task = getsource task' →
  get_params task = get_params task' →
  (∀ name, name ∈ significant_names task →
           param_kwargs task !! name = param_kwargs task' !! name) →
  flatten (requires task) = flatten (SList items.*2) ∧
  get_salted_version limit task = get_salted_version limit task'.
Proof.
  intros Hreq Hreq' Hitems Hsrc Hparams Hsame.
  assert (∀ l : list (string * Struct T),
            flatten (SDict l) = flatten (SList l.*2)) as Hdict.
  { induction l as [|[key s] l IH]; [done|]. cbn in *. by rewrite IH. }
  split; [by rewrite Hreq, Hdict|].
  destruct limit as [|limit]; [done|].
  rewrite !get_salted_version_unfold.
  unfold hashed_message, self_message, lineage_message.
  by rewrite Hreq, Hreq', !Hdict, Hitems, Hsrc,
            (param_pairs_ext task task' Hparams Hsame).
Qed.
End outcomes.

(** ** More on salted targets *)

Section more_targets.
Context {T : Type} `{Luigi T} {Target Kwargs : Type}.
Implicit Types (self : T) (limit : nat) (kwargs : Kwargs)
               (target_type : string → Kwargs → Target).

(** X6: a placeholder [{self.attr}] for an attribute that the task has is
    replaced by [str] of the attribute's value, next to the salt or
    without it. *)
Theorem salt_target_inserts_attribute
    self limit d target_type kwargs pre pre' post post' attr value :
  get_salted_version limit self = Ok d →
  format pre (slice_to d (salt_length self)) self = Ok pre' →
  format post (slice_to d (salt_length self)) self = Ok post' →
  plain_name attr = true →
  getattr self attr = Some value →
  salt_target limit self target_type
              (pre +:+ "{self." +:+ attr +:+ "}" +:+ post) kwargs
  = Ok (target_type (pre' +:+ py_str value +:+ post') kwargs).
Proof.
  intros Hd Hpre Hpost Hattr Hvalue.
  pose proof (plain_name_spec _ Hattr) as (_ & Hfield & _ & _).
  rewrite (salt_target_unfold _ _ _ _ _ _ Hd).
  change (pre +:+ "{self." +:+ attr +:+ "}" +:+ post)
    with (pre +:+ "{" +:+ "self." +:+ attr +:+ "}" +:+ post).
  rewrite <-(string_app_assoc "self." attr).
  rewrite (format_field_at _ _ _ _ _ _ Hpre) by done.
  rewrite format_field_self_attribute, Hvalue by done. cbn.
  by rewrite Hpost.
Qed.

(** X7: the bounds of the slice [[:salt_length]].  Whatever the salt
    length, no exception is raised for it: at 64 and above the salt is the
    whole digest, at 0 and at -64 and below it is empty, and a length
    between -64 and 0 cuts that many characters off the end of the
    digest. *)
Theorem salt_length_bounds
    self limit d target_type kwargs pre pre' post post' :
  get_salted_version limit self = Ok d →
  let n := salt_length self in
  let salt := slice_to d n in
  format pre salt self = Ok pre' →
  format post salt self = Ok post' →
  salt_target limit self target_type (pre +:+ "{salt}" +:+ post) kwargs
  = Ok (target_type (pre' +:+ salt +:+ post') kwargs) ∧
  (64 ≤ n → salt = d) ∧
  (n = 0 ∨ n ≤ -64 → salt = "") ∧
  (-64 < n < 0 →
   salt = substring 0 (Z.to_nat (64 + n)) d ∧
   String.length salt = Z.to_nat (64 + n)).
Proof.
  intros Hd n salt Hpre Hpost.
  pose proof (get_salted_version_length _ _ _ Hd) as Hlen.
  split.
  { rewrite (salt_target_unfold _ _ _ _ _ _ Hd). fold n. fold salt.
    change (pre +:+ "{salt}" +:+ post)
      with (pre +:+ "{" +:+ "salt" +:+ "}" +:+ post).
    rewrite (format_field_at _ _ _ _ _ _ Hpre) by done.
    rewrite format_field_salt. cbn. by rewrite Hpost. }
  subst salt. unfold slice_to. rewrite Hlen.
  split; [|split].
  - intros Hn. rewrite decide_False by lia.
    rewrite Z.min_r by lia. apply substring_all. rewrite Hlen. lia.
  - intros [-> | Hn].
    + rewrite decide_False by lia. by destruct d.
    + rewrite decide_True by lia. rewrite Z.max_l by lia. by destruct d.
  - intros Hn. rewrite decide_True by lia. rewrite Z.max_r by lia.
    split; [done|]. rewrite substring_length, Hlen. lia.
Qed.

(** X8: a pattern without braces names the target as it stands, and the
    digest is computed all the same: the call returns the target at the
    pattern when the digest exists and raises [RecursionError] when it
    does not. *)
Theorem salt_target_literal_pattern
    self limit target_type kwargs pattern :
  literal_text pattern = true →
  ((∃ d, get_salted_version limit self = Ok d) ∧
   salt_target limit self target_type pattern kwargs
   = Ok (target_type pattern kwargs)) ∨
  (get_salted_version limit self = Raise RecursionError ∧
   salt_target limit self target_type pattern kwargs = Raise RecursionError).
Proof.
  intros Hlit.
  destruct (get_salted_version_outcomes self limit) as [[d Hd] | Hraise].
  - left. split; [eauto|]. rewrite (salt_target_unfold _ _ _ _ _ _ Hd).
    by rewrite format_literal.
  - right. split; [done|]. unfold salt_target. by rewrite Hraise.
Qed.

Lemma format_from_unclosed salt self name body :
  all_chars is_field_char body = true →
  format_from salt self (Some name) body = Raise ValueError.
Proof.
  revert name. induction body as [|c body IH]; intros name Hbody; [done|].
  cbn in Hbody. apply andb_true_iff in Hbody as [Hc Hbody].
  apply bool_decide_eq_true in Hc. cbn [format_from].
  rewrite !decide_False by tauto. by apply IH.
Qed.

(** X9: a pattern is malformed when a replacement field is not closed or a
    closing brace stands alone; after a prefix that formats,
    [salt_target] then raises [ValueError] and returns no target. *)
Theorem malformed_pattern_raises_ValueError
    self limit d target_type kwargs pre pre' body rest :
  get_salted_version limit self = Ok d →
  format pre (slice_to d (salt_length self)) self = Ok pre' →
  all_chars is_field_char body = true →
  (rest = "" ∨ ∃ c rest', rest = String c rest' ∧ c ≠ "}"%char) →
  salt_target limit self target_type (pre +:+ "{" +:+ body) kwargs
  = Raise ValueError ∧
  salt_target limit self target_type (pre +:+ "}" +:+ rest) kwargs
  = Raise ValueError.
Proof.
  intros Hd Hpre Hbody Hrest.
  rewrite !(salt_target_unfold _ _ _ _ _ _ Hd).
  rewrite !(format_app _ _ _ _ _ Hpre). unfold format. split.
  - rewrite string_app_cons, string_app_nil. cbn [format_from].
    rewrite decide_True by done. destruct body as [|c body]; [done|].
    cbn in Hbody. apply andb_true_iff in Hbody as [Hc Hbody].
    pose proof Hc as Hc'. apply bool_decide_eq_true in Hc'.
    rewrite decide_False by tauto.
    rewrite format_from_unclosed; [done|]. cbn. by rewrite Hc, Hbody.
  - rewrite string_app_cons, string_app_nil. cbn [format_from].
    rewrite decide_False, decide_True by done.
    destruct Hrest as [-> | (c & rest' & -> & Hc)]; [done|].
    by rewrite decide_False.
Qed.

(** X10: with one pattern made of text, [{salt}] and text, two tasks get
    one path exactly when their salts are equal. *)
Theorem salted_paths_equal_iff_salts_equal
    self self' limit d d' target_type kwargs pre post :
  get_salted_version limit self = Ok d →
  get_salted_version limit self' = Ok d' →
  literal_text pre = true →
  literal_text post = true →
  let salt := slice_to d (salt_length self) in
  let salt' := slice_to d' (salt_length self') in
  salt_target limit self target_type (pre +:+ "{salt}" +:+ post) kwargs
  = Ok (target_type (pre +:+ salt +:+ post) kwargs) ∧
  salt_target limit self' target_type (pre +:+ "{salt}" +:+ post) kwargs
  = Ok (target_type (pre +:+ salt' +:+ post) kwargs) ∧
  (pre +:+ salt +:+ post = pre +:+ salt' +:+ post ↔ salt = salt').
Proof.
  intros Hd Hd' Hpre Hpost salt salt'.
  assert (∀ t e, get_salted_version limit t = Ok e →
            salt_target limit t target_type (pre +:+ "{salt}" +:+ post) kwargs
            = Ok (target_type (pre +:+ slice_to e (salt_length t) +:+ post)
                              kwargs)) as Hpath.
  { intros t e He. rewrite (salt_target_unfold _ _ _ _ _ _ He).
    change (pre +:+ "{salt}" +:+ post)
      with (pre +:+ "{" +:+ "salt" +:+ "}" +:+ post).
    rewrite (format_field_at _ _ pre pre "salt" post
               (format_literal _ _ _ Hpre) eq_refl).
    rewrite format_field_salt. cbn. by rewrite format_literal. }
  split; [by apply Hpath|]. split; [by apply Hpath|].
  split; [|by intros ->].
  intros Heq%String.app_inj. by apply string_app_inv_tail in Heq.
Qed.

(** X11: the salt length is itself hashed.  For two tasks of a subclass
    of [SaltedTask] that differ in [salt_length] only, the hashed messages
    differ: the digest changes with the length, unless SHA-256 collides on
    the two messages, and not only the number of its characters that the
    path shows. *)
Theorem salt_length_is_hashed self self' limit m m' :
  SaltedTask_parameters self →
  SaltedTask_parameters self' →
  requires self = requires self' →
  getsource self = getsource self' →
  get_params self = get_params self' →
  NoDup (significant_names self) →
  (∀ other, other ∈ significant_names self → other ≠ "salt_length" →
            param_kwargs self !! other = param_kwargs self' !! other) →
  salt_length self ≠ salt_length self' →
  hashed_message limit self = Ok m →
  hashed_message limit self' = Ok m' →
  m ≠ m' ∧
  (¬ sha256_collision m m' →
   get_salted_version (S limit) self ≠ get_salted_version (S limit) self').
Proof.
  intros (Hdecl & _ & _ & Hlen) (_ & _ & _ & Hlen') Hreq Hsrc Hparams
         Hnodup Hothers Hne Hm Hm'.
  assert (m ≠ m') as Hmne.
  { eapply (significant_change self self' limit "salt_length"); eauto.
    - apply Hdecl. set_solver.
    - cbn. intros Heq%decimal_inj. done. }
  split; [done|]. by apply changed_message_changed_digest.
Qed.
End more_targets.

(** ** The task classes of the module *)

(** X12: [AggregateArtists] derives from [luigi.Task], not from
    [SaltedTask], so that the [self.salt_target] of its [output] finds no
    method: the call raises [AttributeError] for every interval and no
    target is made.  [TrainDigits] and [PredictDigits] find the method in
    [SaltedTask]. *)
Theorem AggregateArtists_output_raises src limit interval :
  find_attribute 4 "AggregateArtists" "salt_target" = None ∧
  find_attribute 4 "TrainDigits" "salt_target" = Some "SaltedTask" ∧
  find_attribute 4 "PredictDigits" "salt_target" = Some "SaltedTask" ∧
  AggregateArtists_output src limit interval
  = Raise (AttributeError "salt_target").
Proof.
  assert (find_attribute 4 "AggregateArtists" "salt_target" = None) as Hnone
    by (vm_compute; reflexivity).
  split; [done|]. split; [vm_compute; reflexivity|].
  split; [vm_compute; reflexivity|].
  unfold AggregateArtists_output, call_salt_target. by rewrite Hnone.
Qed.

Lemma Streams_digest src date limit :
  get_salted_version (S limit) (Streams src date)
  = Ok (sha256_hex (Streams_source src +:+ ",date=" +:+ py_repr date)).
Proof.
  rewrite get_salted_version_unfold.
  assert (hashed_message limit (Streams src date)
          = Ok (Streams_source src +:+ ",date=" +:+ py_repr date)) as ->;
    [|done].
  unfold hashed_message, self_message.
  rewrite lineage_message_nil by done.
  by rewrite (param_pairs_single _ "date" date).
Qed.

(** X13: the message of [AggregateArtists] is made of the digests of one
    [Streams] task per date of the interval, in the order of the dates,
    followed by the class source and the pair of the interval; each
    [Streams] digest is that of the [Streams] source and the pair of its
    date. *)
Theorem AggregateArtists_message src interval limit :
  let digest_of date :=
    sha256_hex (Streams_source src +:+ ",date=" +:+ py_repr date) in
  let message :=
    join "" (digest_of <$> interval_dates interval)
    +:+ AggregateArtists_source src
    +:+ ",date_interval=" +:+ interval_text interval in
  flatten (requires (AggregateArtists src interval))
  = Streams src <$> interval_dates interval ∧
  hashed_message (S limit) (AggregateArtists src interval) = Ok message ∧
  get_salted_version (S (S limit)) (AggregateArtists src interval)
  = Ok (sha256_hex message).
Proof.
  intros digest_of message.
  assert (flatten (requires (AggregateArtists src interval))
          = Streams src <$> interval_dates interval) as Hreq.
  { cbn. induction (interval_dates interval) as [|date dates IH]; [done|].
    cbn. by rewrite IH. }
  assert (hashed_message (S limit) (AggregateArtists src interval)
          = Ok message) as Hm.
  { unfold hashed_message, self_message.
    rewrite (lineage_message_Ok _ _ (digest_of <$> interval_dates interval)).
    - by rewrite (param_pairs_single _ "date_interval"
                    (PyObject (interval_text interval)
                              (interval_text interval))).
    - rewrite Hreq. apply Forall2_fmap, Forall2_same_length_lookup.
      split; [done|]. intros i date date' Hi Hi'. simplify_eq.
      apply Streams_digest. }
  split; [done|]. split; [done|].
  by rewrite get_salted_version_unfold, Hm.
Qed.

Lemma svc_param_pairs (task : node) (p : svc) :
  node_params task = svc_params p →
  param_pairs task
  = Ok ["c=" +:+ py_repr (svc_c p);
        "gamma=" +:+ py_repr (svc_gamma p);
        "kernel=" +:+ py_repr (svc_kernel p);
        "salt_length=" +:+ decimal (svc_salt_length p);
        "salt_parameters=" +:+ py_repr (PyBool (svc_salt_parameters p));
        "salt_workflow=" +:+ py_repr (PyBool (svc_salt_workflow p))].
Proof.
  intros Hparams. unfold param_pairs, pair_of, subscript. cbn.
  unfold node_kwargs. rewrite Hparams. reflexivity.
Qed.

Lemma TrainDigits_message src p limit :
  hashed_message limit (TrainDigits src p)
  = Ok (TrainDigits_source src +:+ svc_pairs p).
Proof.
  unfold hashed_message, self_message.
  rewrite lineage_message_nil by done. by rewrite (svc_param_pairs _ p).
Qed.

Lemma TrainDigits_digest src p limit :
  get_salted_version (S limit) (TrainDigits src p)
  = Ok (sha256_hex (TrainDigits_source src +:+ svc_pairs p)).
Proof. by rewrite get_salted_version_unfold, TrainDigits_message. Qed.

Lemma PredictDigits_message src p limit :
  hashed_message (S limit) (PredictDigits src p)
  = Ok (sha256_hex (TrainDigits_source src +:+ svc_pairs p)
        +:+ PredictDigits_source src +:+ svc_pairs p).
Proof.
  unfold hashed_message, self_message.
  rewrite (lineage_message_Ok _ _
             [sha256_hex (TrainDigits_source src +:+ svc_pairs p)]).
  - by rewrite (svc_param_pairs _ p).
  - constructor; [apply TrainDigits_digest|constructor].
Qed.

Lemma PredictDigits_digest src p limit :
  get_salted_version (S (S limit)) (PredictDigits src p)
  = Ok (sha256_hex (sha256_hex (TrainDigits_source src +:+ svc_pairs p)
                    +:+ PredictDigits_source src +:+ svc_pairs p)).
Proof. by rewrite get_salted_version_unfold, PredictDigits_message. Qed.

(** X14: [TrainDigits] and [PredictDigits] hash the same six pairs, by
    ascending name, each after its own class source; [PredictDigits]
    puts in front the digest of the [TrainDigits] task that [clone] builds
    from its own parameter values. *)
Theorem SVC_messages src p limit :
  let pairs :=
    ",c=" +:+ py_repr (svc_c p)
    +:+ ",gamma=" +:+ py_repr (svc_gamma p)
    +:+ ",kernel=" +:+ py_repr (svc_kernel p)
    +:+ ",salt_length=" +:+ decimal (svc_salt_length p)
    +:+ ",salt_parameters=" +:+ py_repr (PyBool (svc_salt_parameters p))
    +:+ ",salt_workflow=" +:+ py_repr (PyBool (svc_salt_workflow p)) in
  let train := TrainDigits_source src +:+ pairs in
  flatten (requires (PredictDigits src p)) = [TrainDigits src p] ∧
  hashed_message limit (TrainDigits src p) = Ok train ∧
  get_salted_version (S limit) (TrainDigits src p) = Ok (sha256_hex train) ∧
  hashed_message (S limit) (PredictDigits src p)
  = Ok (sha256_hex train +:+ PredictDigits_source src +:+ pairs).
Proof.
  intros pairs train. split; [done|].
  split; [apply TrainDigits_message|].
  split; [apply TrainDigits_digest|apply PredictDigits_message].
Qed.

(** X15: with a salt length that is not negative, the model of
    [TrainDigits] goes to [data/model-<salt>.pkl], built with
    [format=Nop], and the accuracy of [PredictDigits] to
    [data/accuracy-<salt>.txt], each salt being the first [salt_length]
    characters of the digest of its own task. *)
Theorem SVC_output_paths src p limit :
  0 ≤ svc_salt_length p →
  let n := Z.to_nat (svc_salt_length p) in
  let train := sha256_hex (TrainDigits_source src +:+ svc_pairs p) in
  let predict :=
    sha256_hex (train +:+ PredictDigits_source src +:+ svc_pairs p) in
  TrainDigits_output src (S limit) p
  = Ok {| path := "data/model-" +:+ substring 0 n train +:+ ".pkl";
          format_kw := Some "Nop" |} ∧
  PredictDigits_output src (S (S limit)) p
  = Ok {| path := "data/accuracy-" +:+ substring 0 n predict +:+ ".txt";
          format_kw := None |}.
Proof.
  intros Hlen n train predict.
  assert (find_attribute 4 "TrainDigits" "salt_target" = Some "SaltedTask")
    as Htrain by (vm_compute; reflexivity).
  assert (find_attribute 4 "PredictDigits" "salt_target" = Some "SaltedTask")
    as Hpredict by (vm_compute; reflexivity).
  unfold TrainDigits_output, PredictDigits_output, call_salt_target.
  rewrite Htrain, Hpredict. split.
  - rewrite (salt_target_unfold _ _ _ _ _ _ (TrainDigits_digest src p limit)).
    change "data/model-{salt}.pkl"
      with ("data/model-" +:+ "{" +:+ "salt" +:+ "}" +:+ ".pkl").
    rewrite (format_field_at _ _ "data/model-" "data/model-" "salt" ".pkl")
      by (by apply format_literal || done).
    rewrite format_field_salt. cbn [mbind outcome_bind].
    rewrite format_literal by done. cbn [mbind outcome_bind].
    by rewrite slice_to_nonneg.
  - rewrite (salt_target_unfold _ _ _ _ _ _
               (PredictDigits_digest src p limit)).
    change "data/accuracy-{salt}.txt"
      with ("data/accuracy-" +:+ "{" +:+ "salt" +:+ "}" +:+ ".txt").
    rewrite (format_field_at _ _ "data/accuracy-" "data/accuracy-" "salt"
               ".txt") by (by apply format_literal || done).
    rewrite format_field_salt. cbn [mbind outcome_bind].
    rewrite format_literal by done. cbn [mbind outcome_bind].
    by rewrite slice_to_nonneg.
Qed.

(** ** The further properties on concrete tasks *)

Lemma digest_only_within_depth_witness :
  chains_within 3 (Salted false 6 PyNone) ∧
  finite_acyclic (Salted false 6 PyNone) ∧
  (∃ d, get_salted_version 3 (Leaf (PyDate 2018 3 7)) = Ok d) ∧
  ¬ reachable (Parent (PyDate 2018 3 7)) (Salted false 6 PyNone).
Proof.
  destruct (digest_only_within_depth
              (Salted false 6 PyNone) 3
              "46629d968b7605253a7fe7b16939e22e4d98aba58fbf691f2b15d10a01a9b8ec")
    as (Hwithin & Hfinite & Hall & Hcycle); [vm_compute; reflexivity|].
  split; [exact Hwithin|]. split; [exact Hfinite|]. split.
  - apply Hall.
    apply (reachable_step _ (Parent (PyDate 2018 3 7))); [by left|].
    apply (reachable_step _ (Leaf (PyDate 2018 3 7))); [by left|].
    apply reachable_refl.
  - apply Hcycle. by left.
Defined.

Lemma requirement_order_matters_witness :
  get_salted_version 2
    (Join (SList [STask (Leaf (PyInt 1)); STask (Leaf (PyInt 2))]))
  ≠ get_salted_version 2
      (Join (SList [STask (Leaf (PyInt 2)); STask (Leaf (PyInt 1))])).
Proof.
  destruct (requirement_order_matters
              (Join (SList [STask (Leaf (PyInt 1)); STask (Leaf (PyInt 2))]))
              (Join (SList [STask (Leaf (PyInt 2)); STask (Leaf (PyInt 1))]))
              1 [] (Leaf (PyInt 1)) (Leaf (PyInt 2)) []
              "774df5089c0c44d7d44018d65ab563bfc789832e06fce5b6ba517f6acc726e84"
              "c2570cb653907dcc2bcd91b1748ab3e3edd79e077df16dec504f4655d1d561f7"
              "774df5089c0c44d7d44018d65ab563bfc789832e06fce5b6ba517f6acc726e84c2570cb653907dcc2bcd91b1748ab3e3edd79e077df16dec504f4655d1d561f7J"
              "c2570cb653907dcc2bcd91b1748ab3e3edd79e077df16dec504f4655d1d561f7774df5089c0c44d7d44018d65ab563bfc789832e06fce5b6ba517f6acc726e84J")
    as [_ Hdigest];
    [reflexivity
    |reflexivity
    |vm_compute; reflexivity
    |vm_compute; reflexivity
    |discriminate
    |vm_compute; reflexivity
    |vm_compute; reflexivity
    |].
  apply Hdigest. intros [_ Heq]. revert Heq. vm_compute. discriminate.
Defined.

Lemma requirement_digest_in_message_witness :
  get_salted_version 2
    (Join (SList [STask (Leaf (PyInt 1)); STask (Leaf (PyInt 2))]))
  ≠ get_salted_version 2 (Parent (PyInt 2)).
Proof.
  destruct (requirement_digest_in_message
              (Join (SList [STask (Leaf (PyInt 1)); STask (Leaf (PyInt 2))]))
              (Parent (PyInt 2))
              1 [] (Leaf (PyInt 1)) (Leaf (PyInt 2)) [Leaf (PyInt 2)] []
              "774df5089c0c44d7d44018d65ab563bfc789832e06fce5b6ba517f6acc726e84"
              "c2570cb653907dcc2bcd91b1748ab3e3edd79e077df16dec504f4655d1d561f7"
              "774df5089c0c44d7d44018d65ab563bfc789832e06fce5b6ba517f6acc726e84c2570cb653907dcc2bcd91b1748ab3e3edd79e077df16dec504f4655d1d561f7J"
              "c2570cb653907dcc2bcd91b1748ab3e3edd79e077df16dec504f4655d1d561f7P")
    as [_ Hdigest];
    [reflexivity
    |reflexivity
    |vm_compute; reflexivity
    |vm_compute; reflexivity
    |discriminate
    |vm_compute; reflexivity
    |vm_compute; reflexivity
    |].
  apply Hdigest. intros [_ Heq]. revert Heq. vm_compute. discriminate.
Defined.

Lemma source_change_changes_message_witness :
  get_salted_version 1 (Leaf (PyInt 1))
  ≠ get_salted_version 1
      (Streams {| Streams_source := "A"; AggregateArtists_source := "B";
                  TrainDigits_source := "C"; PredictDigits_source := "D" |}
               (PyInt 1)).
Proof.
  destruct (source_change_changes_message
              (Leaf (PyInt 1))
              (Streams {| Streams_source := "A"; AggregateArtists_source := "B";
                          TrainDigits_source := "C";
                          PredictDigits_source := "D" |}
                       (PyInt 1))
              0 "L,date=1" "A,date=1")
    as [_ Hdigest];
    [reflexivity
    |reflexivity
    |
    |discriminate
    |vm_compute; reflexivity
    |vm_compute; reflexivity
    |].
  - intros name Hin. change (name ∈ ["date"]) in Hin.
    each_name Hin. vm_compute; reflexivity.
  - apply Hdigest. intros [_ Heq]. revert Heq. vm_compute. discriminate.
Defined.

Lemma requirement_dict_keys_ignored_witness :
  get_salted_version 2
    (Join (SDict [("a", STask (Leaf (PyInt 1))); ("b", STask (Leaf (PyInt 2)))]))
  = get_salted_version 2
      (Join (SDict [("x", STask (Leaf (PyInt 1)));
                    ("y", STask (Leaf (PyInt 2)))])).
Proof.
  destruct (requirement_dict_keys_ignored
              (Join (SDict [("a", STask (Leaf (PyInt 1)));
                            ("b", STask (Leaf (PyInt 2)))]))
              (Join (SDict [("x", STask (Leaf (PyInt 1)));
                            ("y", STask (Leaf (PyInt 2)))]))
              2
              [("a", STask (Leaf (PyInt 1))); ("b", STask (Leaf (PyInt 2)))]
              [("x", STask (Leaf (PyInt 1))); ("y", STask (Leaf (PyInt 2)))])
    as [_ Hsame];
    [reflexivity..| |exact Hsame].
  intros name Hin. change (name ∈ []) in Hin. by apply elem_of_nil in Hin.
Defined.

Lemma salt_target_inserts_attribute_witness :
  salt_target 3 (Salted true 8 (PyStr "x")) Build_LocalTarget
              ("data/" +:+ "{self." +:+ "salt_length" +:+ "}" +:+ "/{salt}.pkl")
              None
  = Ok {| path := "data/8/89326510.pkl"; format_kw := None |}.
Proof.
  apply (salt_target_inserts_attribute
           (Salted true 8 (PyStr "x")) 3
           "893265102ae74bb0cb111c23b5079c612d49c03e786e01b8e1c8cb1145c60a22"
           Build_LocalTarget None "data/" "data/" "/{salt}.pkl"
           "/89326510.pkl" "salt_length" (PyInt 8));
    vm_compute; reflexivity.
Defined.

Lemma salt_length_bounds_witness :
  salt_target 3 (Salted true (-60) PyNone) Build_LocalTarget
              ("out-" +:+ "{salt}" +:+ ".csv") None
  = Ok {| path := "out-03da.csv"; format_kw := None |} ∧
  String.length
    (slice_to "03dad9bf70e7988071d6872a1c752603c782cf12ab9d14a39973cc06e720eb73"
              (-60)) = 4%nat.
Proof.
  destruct (salt_length_bounds
              (Salted true (-60) PyNone) 3
              "03dad9bf70e7988071d6872a1c752603c782cf12ab9d14a39973cc06e720eb73"
              Build_LocalTarget None "out-" "out-" ".csv" ".csv")
    as (Hpath & _ & _ & Hcut);
    [vm_compute; reflexivity
    |vm_compute; reflexivity
    |vm_compute; reflexivity
    |].
  split; [exact Hpath|]. apply Hcut. vm_compute. split; reflexivity.
Defined.

Lemma salt_target_literal_pattern_witness :
  salt_target 3 (Salted true 8 PyNone) Build_LocalTarget "data/fixed.pkl" None
  = Ok {| path := "data/fixed.pkl"; format_kw := None |} ∧
  salt_target 3 Loop Build_LocalTarget "data/fixed.pkl" None
  = Raise RecursionError.
Proof.
  split.
  - destruct (salt_target_literal_pattern
                (Salted true 8 PyNone) 3 Build_LocalTarget None
                "data/fixed.pkl")
      as [[_ Hpath] | [Hraise _]];
      [reflexivity|exact Hpath|].
    revert Hraise. vm_compute. discriminate.
  - destruct (salt_target_literal_pattern
                Loop 3 Build_LocalTarget None "data/fixed.pkl")
      as [[[d Hd] _] | [_ Hraise]];
      [reflexivity| |exact Hraise].
    revert Hd. vm_compute. discriminate.
Defined.

Lemma malformed_pattern_raises_ValueError_witness :
  salt_target 3 (Salted true 8 PyNone) Build_LocalTarget
              ("data/" +:+ "{" +:+ "salt") None
  = Raise ValueError ∧
  salt_target 3 (Salted true 8 PyNone) Build_LocalTarget
              ("data/" +:+ "}" +:+ ".pkl") None
  = Raise ValueError.
Proof.
  apply (malformed_pattern_raises_ValueError
           (Salted true 8 PyNone) 3
           "893265102ae74bb0cb111c23b5079c612d49c03e786e01b8e1c8cb1145c60a22"
           Build_LocalTarget None "data/" "data/" "salt" ".pkl");
    [vm_compute; reflexivity
    |vm_compute; reflexivity
    |vm_compute; reflexivity
    |].
  right. exists "."%char, "pkl". split; [reflexivity|discriminate].
Defined.

Lemma salted_paths_equal_iff_salts_equal_witness :
  salt_target 3 (Salted true 8 PyNone) Build_LocalTarget
              ("out-" +:+ "{salt}" +:+ ".csv") None
  = Ok {| path := "out-89326510.csv"; format_kw := None |} ∧
  salt_target 3 (Salted true 6 PyNone) Build_LocalTarget
              ("out-" +:+ "{salt}" +:+ ".csv") None
  = Ok {| path := "out-fa22a6.csv"; format_kw := None |}.
Proof.
  destruct (salted_paths_equal_iff_salts_equal
              (Salted true 8 PyNone) (Salted true 6 PyNone) 3
              "893265102ae74bb0cb111c23b5079c612d49c03e786e01b8e1c8cb1145c60a22"
              "fa22a64e9f3979ec4f2ae1a8359b8a286fbdef0a0333723ef615999a5d1cd413"
              Build_LocalTarget None "out-" ".csv")
    as (Hpath & Hpath' & _);
    [vm_compute; reflexivity
    |vm_compute; reflexivity
    |reflexivity
    |reflexivity
    |].
  split; [exact Hpath|exact Hpath'].
Defined.

Lemma salt_length_is_hashed_witness :
  get_salted_version 3 (Salted true 8 PyNone)
  ≠ get_salted_version 3 (Salted true 6 PyNone).
Proof.
  assert (∀ length, SaltedTask_parameters (Salted true length PyNone))
    as Hsalted.
  { intros length. split; [|by repeat split].
    intros name Hin. change (name ∈ significant_names (Salted true 0 PyNone)).
    each_name Hin; apply (bool_decide_unpack _); vm_compute; exact I. }
  destruct (salt_length_is_hashed
              (Salted true 8 PyNone) (Salted true 6 PyNone) 2
              "221078c46188815d1779bc16be6964ee1d071bc057c008a54c4c3eb273a0546dS,salt_length=8,salt_parameters=False,salt_workflow=True"
              "221078c46188815d1779bc16be6964ee1d071bc057c008a54c4c3eb273a0546dS,salt_length=6,salt_parameters=False,salt_workflow=True")
    as [_ Hdigest];
    [apply Hsalted
    |apply Hsalted
    |reflexivity
    |reflexivity
    |reflexivity
    |
    |
    |discriminate
    |vm_compute; reflexivity
    |vm_compute; reflexivity
    |].
  - apply (bool_decide_unpack _). vm_compute. exact I.
  - intros other Hin Hne.
    change (other ∈ ["salt_workflow"; "salt_parameters"; "salt_length"]) in Hin.
    each_name Hin; [vm_compute; reflexivity..|done].
  - apply Hdigest. intros [_ Heq]. revert Heq. vm_compute. discriminate.
Defined.

Lemma SVC_output_paths_witness :
  TrainDigits_output
    {| Streams_source := "A"; AggregateArtists_source := "B";
       TrainDigits_source := "C"; PredictDigits_source := "D" |} 1
    {| svc_c := PyObject "100.0" "100.0"; svc_gamma := PyObject "1.0" "1.0";
       svc_kernel := PyStr "rbf";
       svc_salt_workflow := true; svc_salt_parameters := false;
       svc_salt_length := 6 |}
  = Ok {| path := "data/model-5df527.pkl"; format_kw := Some "Nop" |} ∧
  PredictDigits_output
    {| Streams_source := "A"; AggregateArtists_source := "B";
       TrainDigits_source := "C"; PredictDigits_source := "D" |} 2
    {| svc_c := PyObject "100.0" "100.0"; svc_gamma := PyObject "1.0" "1.0";
       svc_kernel := PyStr "rbf";
       svc_salt_workflow := true; svc_salt_parameters := false;
       svc_salt_length := 6 |}
  = Ok {| path := "data/accuracy-b85e4e.txt"; format_kw := None |}.
Proof.
  destruct (SVC_output_paths
              {| Streams_source := "A"; AggregateArtists_source := "B";
                 TrainDigits_source := "C"; PredictDigits_source := "D" |}
              {| svc_c := PyObject "100.0" "100.0";
                 svc_gamma := PyObject "1.0" "1.0";
                 svc_kernel := PyStr "rbf"; svc_salt_workflow := true;
                 svc_salt_parameters := false; svc_salt_length := 6 |} 0)
    as [Htrain Hpredict]; [discriminate|].
  revert Htrain Hpredict. vm_compute. intros Htrain Hpredict.
  split; [exact Htrain|exact Hpredict].
Defined.
